(** * FileNavigation: a Sublime Text directory browser

    Shallow embedding of [FileNavigation.py] and the properties of its
    lister ([FileNavigationHelper.get_listing]), its session state
    ([FileNavigationHelper]) and its two window commands.

    Layout:
    - [Py]      : the few Python values and string methods the plugin uses;
    - [PosixPath], [GenericPath]: the [os.path] functions called by the
      plugin, following CPython's [posixpath] and [genericpath] modules
      line by line, over a disk given by [os.stat], [glob.glob] and
      [os.getcwd];
    - [FileNavigationHelper], [QuickOpenFileNavigationCommand],
      [FileNavigationCommand]: the three classes of the plugin;
    - [Fixtures]: small concrete file systems, windows and sessions;
    - the notions used in the statements, then the lemmas and the
      theorems, one group per claim (C1 to C10). *)

From Stdlib Require Import Bool Arith ZArith Lia List Ascii String.
Import ListNotations.
Open Scope Z_scope.
Open Scope list_scope.
Open Scope string_scope.

(* ================================================================== *)
(** ** Python values *)
(* ================================================================== *)

Module Py.

(** The exceptions that the modelled code can raise. *)
Inductive exn : Type :=
| OSError
| AttributeError
| KeyError
| IndexError.

(** A computation that returns or raises. *)
Inductive result (A : Type) : Type :=
| Ok (a : A)
| Raise (e : exn).
Arguments Ok {A} a.
Arguments Raise {A} e.

Definition bind {A B} (m : result A) (k : A -> result B) : result B :=
  match m with
  | Ok a => k a
  | Raise e => Raise e
  end.

Definition is_ok {A} (m : result A) : bool :=
  match m with Ok _ => true | Raise _ => false end.

(** [s.startswith(t)], [s.endswith('/')]. *)
Fixpoint startswith (s t : string) {struct t} : bool :=
  match t, s with
  | "", _ => true
  | String _ _, "" => false
  | String b t', String a s' => (a =? b)%char && startswith s' t'
  end.

Fixpoint endswith_sep (s : string) : bool :=
  match s with
  | "" => false
  | String c "" => (c =? "/")%char
  | String _ r => endswith_sep r
  end.

(** [c in s] for a single character. *)
Fixpoint contains (c : ascii) (s : string) : bool :=
  match s with
  | "" => false
  | String a r => (a =? c)%char || contains c r
  end.

(** [s.rfind(c)]: the index of the last occurrence of [c], or -1. *)
Fixpoint rfind_from (c : ascii) (s : string) (i last : Z) : Z :=
  match s with
  | "" => last
  | String a r => rfind_from c r (i + 1) (if (a =? c)%char then i else last)
  end.

Definition rfind (c : ascii) (s : string) : Z := rfind_from c s 0 (-1).

(** The slices [s[:i]] and [s[i:]] for [0 <= i]. *)
Fixpoint take (n : nat) (s : string) : string :=
  match n, s with
  | O, _ => ""
  | S _, "" => ""
  | S n', String a r => String a (take n' r)
  end.

Fixpoint drop (n : nat) (s : string) : string :=
  match n, s with
  | O, _ => s
  | S _, "" => ""
  | S n', String _ r => drop n' r
  end.

Definition slice_to (i : Z) (s : string) : string := take (Z.to_nat i) s.
Definition slice_from (i : Z) (s : string) : string := drop (Z.to_nat i) s.

(** [s[i:i+1]]: a one-character string, empty past the end. *)
Definition char_at (i : Z) (s : string) : string :=
  take 1 (drop (Z.to_nat i) s).

(** [s.rstrip('/')]. *)
Fixpoint rstrip_sep (s : string) : string :=
  match s with
  | "" => ""
  | String c r =>
      let r' := rstrip_sep r in
      if (c =? "/")%char && (r' =? "") then "" else String c r'
  end.

(** [s == '/' * len(s)]. *)
Fixpoint all_sep (s : string) : bool :=
  match s with
  | "" => true
  | String c r => (c =? "/")%char && all_sep r
  end.

(** [s.split('/')]: never the empty list. *)
Fixpoint split_sep (s : string) : list string :=
  match s with
  | "" => [""]
  | String c r =>
      if (c =? "/")%char then "" :: split_sep r
      else match split_sep r with
           | [] => [String c ""]
           | h :: t => String c h :: t
           end
  end.

(** ['/'.join(comps)]. *)
Definition join_sep (comps : list string) : string := String.concat "/" comps.

(** [s.lower()].  A [string] stands for a [str] whose code points are
    below U+0100, one [ascii] per code point (the literals of this file
    are ASCII).  The upper-case letters among them are A-Z (65-90), the
    letters from A-grave to O-diaeresis (192-214) and from O-stroke to
    Thorn (216-222); each is 32 below its lower-case letter, and [lower]
    leaves every other code point as it is (215 is the multiplication
    sign, 223 the sharp s, which is lower-case). *)
Definition lower_char (c : ascii) : ascii :=
  let n := nat_of_ascii c in
  if (((65 <=? n) && (n <=? 90))
      || ((192 <=? n) && (n <=? 214))
      || ((216 <=? n) && (n <=? 222)))%nat
  then ascii_of_nat (n + 32) else c.

Fixpoint lower (s : string) : string :=
  match s with
  | "" => ""
  | String c r => String (lower_char c) (lower r)
  end.

(** [x in xs] for a list of strings. *)
Definition mem (x : string) (xs : list string) : bool :=
  existsb (String.eqb x) xs.

(** [xs.remove(x)]: drops the first element equal to [x].  (Python raises
    [ValueError] when there is none; the plugin only removes an element it
    has just read from the list.) *)
Fixpoint remove_first (x : string) (xs : list string) : list string :=
  match xs with
  | [] => []
  | y :: ys => if y =? x then ys else y :: remove_first x ys
  end.

(** Truth value of [None]/[str]: [not file_path]. *)
Definition falsy_str (o : option string) : bool :=
  match o with
  | None => true
  | Some s => s =? ""
  end.

End Py.

Import Py.

(* ================================================================== *)
(** ** os.path on POSIX *)
(* ================================================================== *)

Module PosixPath.

Definition pardir : string := "..".

(** [posixpath.join(a, b)]. *)
Definition join (a b : string) : string :=
  if startswith b "/" then b
  else if (a =? "") || endswith_sep a then a ++ b
  else a ++ "/" ++ b.

(** [posixpath.dirname(p)]:
    [i = p.rfind('/') + 1; head = p[:i];
     if head and head != '/'*len(head): head = head.rstrip('/')]. *)
Definition dirname (p : string) : string :=
  let i := rfind "/" p + 1 in
  let head := slice_to i p in
  if negb (head =? "") && negb (all_sep head) then rstrip_sep head else head.

(** [posixpath.basename(p)]: [p[p.rfind('/') + 1:]]. *)
Definition basename (p : string) : string :=
  slice_from (rfind "/" p + 1) p.

(** [posixpath.isabs(p)]. *)
Definition isabs (p : string) : bool := startswith p "/".

(** The [while filenameIndex < dotIndex] loop of [genericpath._splitext]:
    true when some character of [p[lo:hi]] is not a dot. *)
Fixpoint has_non_dot (fuel : nat) (p : string) (lo hi : Z) : bool :=
  match fuel with
  | O => false
  | S fuel' =>
      if (lo <? hi)%Z then
        if negb (char_at lo p =? ".") then true
        else has_non_dot fuel' p (lo + 1) hi
      else false
  end.

(** [posixpath.splitext(p)]. *)
Definition splitext (p : string) : string * string :=
  let sepIndex := rfind "/" p in
  let dotIndex := rfind "." p in
  if (sepIndex <? dotIndex)%Z && has_non_dot (String.length p) p (sepIndex + 1) dotIndex
  then (slice_to dotIndex p, slice_from dotIndex p)
  else (p, "").

(** The number of leading slashes kept by [normpath]: 0, 1 or 2. *)
Definition initial_slashes (path : string) : nat :=
  if startswith path "/" then
    if startswith path "//" && negb (startswith path "///") then 2%nat else 1%nat
  else 0%nat.

Definition is_nil {A} (l : list A) : bool :=
  match l with [] => true | _ => false end.

(** One iteration of [for comp in comps] in [normpath]. *)
Definition norm_step (initial : nat) (new_comps : list string) (comp : string)
  : list string :=
  if (comp =? "") || (comp =? ".") then new_comps
  else if negb (comp =? "..")
          || ((initial =? 0)%nat && is_nil new_comps)
          || (negb (is_nil new_comps) && (last new_comps "" =? ".."))
       then new_comps ++ [comp]
       else removelast new_comps.

Fixpoint slashes (n : nat) : string :=
  match n with
  | O => ""
  | S n' => String "/" (slashes n')
  end.

(** [posixpath.normpath(path)]. *)
Definition normpath (path : string) : string :=
  if path =? "" then "."
  else
    let initial := initial_slashes path in
    let comps := fold_left (norm_step initial) (split_sep path) [] in
    let path' := slashes initial ++ join_sep comps in
    if path' =? "" then "." else path'.

(** [posixpath.abspath(path)], with the process's working directory. *)
Definition abspath (cwd path : string) : string :=
  normpath (if isabs path then path else join cwd path).

End PosixPath.

Import PosixPath.

(* ================================================================== *)
(** ** The operating system and the editor, as the plugin sees them *)
(* ================================================================== *)

(** A call into [os.path] that reads the disk either returns or raises
    [OSError]. *)
Inductive os_result (A : Type) : Type :=
| Returns (a : A)
| RaisesOSError.
Arguments Returns {A} a.
Arguments RaisesOSError {A}.

Definition is_returned {A} (r : os_result A) : bool :=
  match r with Returns _ => true | RaisesOSError => false end.

(** What [os.stat] tells about a path: the type of the file it resolves to
    and its identity. *)
Inductive file_type : Type := S_IFREG | S_IFDIR | S_IFOTHER.

Record stat_result : Type := {
  st_mode : file_type;
  st_ino : nat;
  st_dev : nat
}.

(** The disk as the plugin reaches it: [os.stat] (which follows links and
    raises [OSError] on a path that does not resolve or may not be read),
    [glob.glob] and [os.getcwd()]. *)
Record FileSystem : Type := {
  stat : string -> os_result stat_result;
  glob : string -> list string;
  getcwd : string
}.

(** The tests of [genericpath], each a call of [os.stat]. *)
Module GenericPath.

(** [try: os.stat(path) / except OSError: return False / return True].
    The result is typed as a call that may raise because the plugin calls
    it under [try]; it never does. *)
Definition exists_ (fs : FileSystem) (path : string) : os_result bool :=
  match stat fs path with
  | Returns _ => Returns true
  | RaisesOSError => Returns false
  end.

(** [try: st = os.stat(path) / except OSError: return False /
     return stat.S_ISREG(st.st_mode)]. *)
Definition isfile (fs : FileSystem) (path : string) : bool :=
  match stat fs path with
  | Returns st => match st_mode st with S_IFREG => true | _ => false end
  | RaisesOSError => false
  end.

Definition isdir (fs : FileSystem) (s : string) : bool :=
  match stat fs s with
  | Returns st => match st_mode st with S_IFDIR => true | _ => false end
  | RaisesOSError => false
  end.

Definition samestat (s1 s2 : stat_result) : bool :=
  (st_ino s1 =? st_ino s2)%nat && (st_dev s1 =? st_dev s2)%nat.

(** [s1 = os.stat(f1); s2 = os.stat(f2); return samestat(s1, s2)]. *)
Definition samefile (fs : FileSystem) (f1 f2 : string) : os_result bool :=
  match stat fs f1 with
  | RaisesOSError => RaisesOSError
  | Returns s1 =>
      match stat fs f2 with
      | RaisesOSError => RaisesOSError
      | Returns s2 => Returns (samestat s1 s2)
      end
  end.

End GenericPath.

Import GenericPath.

(** A [sublime.View]: its identity and [view.file_name()]. *)
Record View : Type := {
  view_id : nat;
  file_name : option string
}.

(** [view == other] on values that may be [None]. *)
Definition view_eq (a b : option View) : bool :=
  match a, b with
  | Some x, Some y => (view_id x =? view_id y)%nat
  | None, None => true
  | _, _ => false
  end.

(** What a [sublime.Window] answers when queried. *)
Record Window : Type := {
  active_view : option View;
  views : list View;
  get_view_index : View -> Z * Z;
  find_open_file : string -> option View;
  active_group : Z;
  transient_view_in_group : Z -> option View;
  open_file_view : string -> View    (* the view that [open_file] returns *)
}.

(** A listing entry, the Python list [[label, directory]]. *)
Definition entry : Type := (string * string)%type.

(** The dictionary [stack]: path |-> entries. *)
Definition dict : Type := list (string * list entry).

Fixpoint getitem (d : dict) (k : string) : result (list entry) :=
  match d with
  | [] => Raise KeyError
  | (k', v) :: d' => if k' =? k then Ok v else getitem d' k
  end.

(** [xs[i]] for [0 <= i]. *)
Definition list_getitem {A} (xs : list A) (i : Z) : result A :=
  match nth_error xs (Z.to_nat i) with
  | Some x => Ok x
  | None => Raise IndexError
  end.

(** The calls the plugin makes on the window and on [sublime]. *)
Inductive HostCall : Type :=
| open_file (path : string) (transient : bool)
| focus_view (v : option View)
| run_command (name : string)
| set_view_index (v : View) (group index : Z)
| show_quick_panel (items : list entry) (cwd : string) (selected_index : Z)
| set_timeout_async_navigate (path : string).

(* ================================================================== *)
(** ** class FileNavigationHelper *)
(* ================================================================== *)

Module FileNavigationHelper.

(** The singleton's attributes.  [file_navigation_active] is the setting of
    that name in [sublime_settings]: [true] when set, [false] when erased.
    [calling_view_index] does not exist before the first
    [track_calling_view]. *)
Record t : Type := {
  excluded_extensions : list string;
  file_navigation_active : bool;
  preview_file_path : option string;
  calling_view : option View;
  calling_view_index : option (Z * Z);
  calling_view_is_empty : option bool
}.

Definition set_plugin_visibility (self : t) (is_active : bool) : t :=
  {| excluded_extensions := excluded_extensions self;
     file_navigation_active := is_active;
     preview_file_path := preview_file_path self;
     calling_view := calling_view self;
     calling_view_index := calling_view_index self;
     calling_view_is_empty := calling_view_is_empty self |}.

Definition reset (self : t) : t :=
  set_plugin_visibility
    {| excluded_extensions := excluded_extensions self;
       file_navigation_active := file_navigation_active self;
       preview_file_path := None;
       calling_view := None;
       calling_view_index := calling_view_index self;
       calling_view_is_empty := None |}
    false.

(** [__init__]: the two pattern lists of the preferences, then [reset]. *)
Definition init (binary_file_patterns file_exclude_patterns : list string) : t :=
  reset
    {| excluded_extensions := (binary_file_patterns ++ file_exclude_patterns)%list;
       file_navigation_active := false;
       preview_file_path := None;
       calling_view := None;
       calling_view_index := None;
       calling_view_is_empty := None |}.

(** [window.get_view_index(view)] and [view.file_name()] read an attribute
    of the view: on [None] they raise [AttributeError]. *)
Definition track_calling_view (self : t) (window : Window)
  : result (option string * t) :=
  let cv := active_view window in
  match cv with
  | None => Raise AttributeError
  | Some v =>
      let self' :=
        {| excluded_extensions := excluded_extensions self;
           file_navigation_active := file_navigation_active self;
           preview_file_path := preview_file_path self;
           calling_view := cv;
           calling_view_index := Some (get_view_index window v);
           calling_view_is_empty := Some (List.length (views window) =? 0)%nat |} in
      Ok (file_name v, self')
  end.

Definition truthy (b : option bool) : bool :=
  match b with Some true => true | _ => false end.

Definition get_current_view_index (self : t) : result (Z * Z) :=
  if truthy (calling_view_is_empty self) then Ok (0, -1)
  else match calling_view_index self with
       | Some i => Ok i
       | None => Raise AttributeError
       end.

Definition set_preview (self : t) (file_path : string) : t :=
  set_plugin_visibility
    {| excluded_extensions := excluded_extensions self;
       file_navigation_active := file_navigation_active self;
       preview_file_path := Some file_path;
       calling_view := calling_view self;
       calling_view_index := calling_view_index self;
       calling_view_is_empty := calling_view_is_empty self |}
    true.

Definition get_preview_path (self : t) : option string :=
  preview_file_path self.

(** The one call [show_calling_view] makes on the window. *)
Definition show_calling_view (self : t) : HostCall :=
  if truthy (calling_view_is_empty self) then run_command "close_file"
  else focus_view (calling_view self).

Definition get_dir_from_path (fs : FileSystem) (current_file : string) : string :=
  let path := if isfile fs current_file then dirname current_file else current_file in
  normpath path.

Definition is_same_file (fs : FileSystem) (file_path other_file_path : string) : bool :=
  match samefile fs file_path other_file_path with
  | Returns true => true
  | Returns false => false
  | RaisesOSError => false
  end.

Definition skip_file (fs : FileSystem) (file_path : string) : bool :=
  match exists_ fs file_path with
  | Returns _ => false
  | RaisesOSError => true
  end.

(** The extension test of the first loop of [get_listing]. *)
Definition is_excluded (self : t) (file_path : string) : bool :=
  let extension := "*" ++ lower (snd (splitext file_path)) in
  mem extension (excluded_extensions self).

(** [for file_path in dir_listing: ... dir_listing.remove(file_path)].
    The list iterator keeps an index [i] into the list that the body
    mutates; it stops when [i] is past the end of the current list. *)
Fixpoint exclude_loop (self : t) (fuel : nat) (dir_listing : list string) (i : nat)
  : list string :=
  match fuel with
  | O => dir_listing
  | S fuel' =>
      match nth_error dir_listing i with
      | None => dir_listing
      | Some file_path =>
          if is_excluded self file_path
          then exclude_loop self fuel' (remove_first file_path dir_listing) (S i)
          else exclude_loop self fuel' dir_listing (S i)
      end
  end.

Definition filter_excluded (self : t) (dir_listing : list string) : list string :=
  exclude_loop self (List.length dir_listing) dir_listing 0.

(** The entry appended for a child that is neither skipped nor the
    current file. *)
Definition child_entry (fs : FileSystem) (file_path : string) : entry :=
  let label := basename file_path in
  let label := if isdir fs file_path then label ++ "/" else label in
  (label, get_dir_from_path fs file_path).

(** [for (index, file_path) in enumerate(dir_listing): ...]. *)
Fixpoint add_children (fs : FileSystem) (current_file : string)
         (dir_listing : list string) (entries : list entry) : list entry :=
  match dir_listing with
  | [] => entries
  | file_path :: rest =>
      if skip_file fs file_path then add_children fs current_file rest entries
      else if is_same_file fs file_path current_file
           then add_children fs current_file rest entries
           else add_children fs current_file rest
                  (entries ++ [child_entry fs file_path])%list
  end.

(** [os.path.abspath(os.path.join(path, os.pardir))]. *)
Definition parent_of (fs : FileSystem) (path : string) : string :=
  abspath (getcwd fs) (join path pardir).

(** The children of [current_file]'s directory left by the extension
    filter. *)
Definition filtered_children (self : t) (fs : FileSystem) (current_file : string)
  : list string :=
  let path := get_dir_from_path fs current_file in
  filter_excluded self (glob fs (join path "*")).

Definition get_listing (self : t) (fs : FileSystem) (current_file : string)
  : result dict :=
  let path := get_dir_from_path fs current_file in
  let dir_listing := filtered_children self fs current_file in
  let parent := parent_of fs path in
  match samefile fs path parent with
  | RaisesOSError => Raise OSError
  | Returns same =>
      let entries := if negb same then [(pardir, parent)] else [] in
      Ok [(current_file, add_children fs current_file dir_listing entries)]
  end.

End FileNavigationHelper.

Module H := FileNavigationHelper.

(* ================================================================== *)
(** ** The two window commands *)
(* ================================================================== *)

(** What the commands act on: the helper singleton, the command's
    [self.stack], and the calls made on the host so far (oldest first). *)
Record State : Type := {
  helper : H.t;
  stack : dict;
  calls : list HostCall
}.

Definition call (st : State) (c : HostCall) : State :=
  {| helper := helper st; stack := stack st; calls := (calls st ++ [c])%list |}.

Definition with_helper (st : State) (h : H.t) : State :=
  {| helper := h; stack := stack st; calls := calls st |}.

Definition with_stack (st : State) (d : dict) : State :=
  {| helper := helper st; stack := d; calls := calls st |}.

Module QuickOpenFileNavigationCommand.

Definition is_none {A} (o : option A) : bool :=
  match o with None => true | Some _ => false end.

Definition run (window : Window) (fs : FileSystem) (st : State) : result State :=
  let file_path := H.get_preview_path (helper st) in
  match file_path with
  | None => Ok st
  | Some fp =>
      if (fp =? "") || negb (isfile fs fp) then Ok st
      else
        let view := find_open_file window fp in
        if view_eq view (transient_view_in_group window (active_group window))
           || is_none view
        then
          bind (H.get_current_view_index (helper st)) (fun gi =>
            let view' := open_file_view window fp in
            let st := call st (open_file fp false) in
            Ok (call st (set_view_index view' (fst gi) (snd gi + 1))))
        else Ok st
  end.

End QuickOpenFileNavigationCommand.

Module FileNavigationCommand.

Definition get_path (stack_entry : entry) : string :=
  let name := fst stack_entry in
  let directory := snd stack_entry in
  if (name =? pardir) || endswith_sep name then directory
  else join directory name.

Definition navigate (fs : FileSystem) (st : State) (path_to_navigate : string)
  : result State :=
  bind (H.get_listing (helper st) fs path_to_navigate) (fun d =>
    let st := with_stack st d in
    bind (getitem (stack st) path_to_navigate) (fun items =>
      Ok (call st (show_quick_panel items path_to_navigate 0)))).

(** [if not current_file: current_file = os.getcwd()]. *)
Definition starting_file (fs : FileSystem) (current_file : option string) : string :=
  match current_file with
  | Some f => if falsy_str current_file then getcwd fs else f
  | None => getcwd fs
  end.

Definition run (window : Window) (fs : FileSystem) (st : State) : result State :=
  bind (H.track_calling_view (helper st) window) (fun r =>
    let st := with_helper st (snd r) in
    let current_file := starting_file fs (fst r) in
    let st := with_stack st [] in
    navigate fs st current_file).

Definition open_selected_file (fs : FileSystem) (st : State)
           (path : string) (selected_index : Z) : result State :=
  if (selected_index <? 0)%Z then
    let st := call st (H.show_calling_view (helper st)) in
    Ok (with_helper st (H.reset (helper st)))
  else
    bind (getitem (stack st) path) (fun items =>
    bind (list_getitem items selected_index) (fun e =>
      let file_path := get_path e in
      if isfile fs file_path then
        let st := call st (open_file file_path false) in
        Ok (with_helper st (H.reset (helper st)))
      else
        let st := call st (H.show_calling_view (helper st)) in
        Ok (call st (set_timeout_async_navigate file_path)))).

Definition show_preview (fs : FileSystem) (st : State)
           (path : string) (selected_index : Z) : result State :=
  if (0 <=? selected_index)%Z then
    bind (getitem (stack st) path) (fun items =>
    bind (list_getitem items selected_index) (fun e =>
      let file_path := get_path e in
      let st := with_helper st (H.set_preview (helper st) file_path) in
      if isfile fs file_path then Ok (call st (open_file file_path true))
      else Ok (call st (H.show_calling_view (helper st)))))
  else Ok st.

End FileNavigationCommand.

Module Nav := FileNavigationCommand.
Module Quick := QuickOpenFileNavigationCommand.

(* ================================================================== *)
(** ** Concrete file systems and windows *)
(* ================================================================== *)

Module Fixtures.

(** A path that resolves, and what [os.stat] answers for it. *)
Definition node : Type := (string * stat_result)%type.

Fixpoint lookup (nodes : list node) (p : string) : os_result stat_result :=
  match nodes with
  | [] => RaisesOSError
  | (q, st) :: ns => if q =? p then Returns st else lookup ns p
  end.

Fixpoint glob_table (t : list (string * list string)) (pattern : string)
  : list string :=
  match t with
  | [] => []
  | (k, v) :: t' => if k =? pattern then v else glob_table t' pattern
  end.

(** A file system given by the paths that resolve, the result of each
    glob pattern, and the working directory. *)
Definition table_fs (nodes : list node) (globs : list (string * list string))
           (cwd : string) : FileSystem :=
  {| stat := lookup nodes;
     glob := glob_table globs;
     getcwd := cwd |}.

Definition file (p : string) (i : nat) : node :=
  (p, {| st_mode := S_IFREG; st_ino := i; st_dev := 0 |}).
Definition dir (p : string) (i : nat) : node :=
  (p, {| st_mode := S_IFDIR; st_ino := i; st_dev := 0 |}).

(** [/a] holds the directory [/a/b] and the file [/a/c.txt]; [/a/b] holds
    [/a/b/d.py]. *)
Definition fs_abc : FileSystem :=
  table_fs
    [dir "/" 1; dir "/a" 2; dir "/a/b" 3; file "/a/c.txt" 4; file "/a/b/d.py" 5]
    [("/*", ["/a"]); ("/a/*", ["/a/b"; "/a/c.txt"]); ("/a/b/*", ["/a/b/d.py"])]
    "/a".

(** [/a] holds two images next to each other, then a text file. *)
Definition fs_images : FileSystem :=
  table_fs
    [dir "/" 1; dir "/a" 2; file "/a/x.png" 3; file "/a/y.png" 4; file "/a/z.txt" 5]
    [("/*", ["/a"]); ("/a/*", ["/a/x.png"; "/a/y.png"; "/a/z.txt"])]
    "/a".

(** [/a] holds [/a/c.txt] and [/a/loop], a link to [/a] itself. *)
Definition fs_loop : FileSystem :=
  table_fs
    [dir "/" 1; dir "/a" 2; file "/a/c.txt" 3; dir "/a/loop" 2]
    [("/*", ["/a"]); ("/a/*", ["/a/c.txt"; "/a/loop"])]
    "/a".

(** [fs_loop] with what is seen through the link: [/a/loop] holds
    [c.txt] and [loop] again. *)
Definition fs_loop_through : FileSystem :=
  table_fs
    [dir "/" 1; dir "/a" 2; file "/a/c.txt" 3; dir "/a/loop" 2;
     file "/a/loop/c.txt" 3; dir "/a/loop/loop" 2]
    [("/*", ["/a"]); ("/a/*", ["/a/c.txt"; "/a/loop"]);
     ("/a/loop/*", ["/a/loop/c.txt"; "/a/loop/loop"])]
    "/a".

(** Code points above the ASCII range: capital and small e with acute
    accent. *)
Definition E_acute : string := String "201"%char "".
Definition e_acute : string := String "233"%char "".

(** [/a] holds [/a/dangling], a link whose target is gone, and
    [/a/c.txt]. *)
Definition fs_dangling : FileSystem :=
  table_fs
    [dir "/" 1; dir "/a" 2; file "/a/c.txt" 3]
    [("/*", ["/a"]); ("/a/*", ["/a/dangling"; "/a/c.txt"])]
    "/a".

Definition view_c : View := {| view_id := 7; file_name := Some "/a/c.txt" |}.
Definition view_blank : View := {| view_id := 1; file_name := None |}.
Definition view_d : View := {| view_id := 9; file_name := Some "/a/b/d.py" |}.

(** A window with [/a/c.txt] open in its only tab. *)
Definition window_c : Window :=
  {| active_view := Some view_c;
     views := [view_c];
     get_view_index := fun _ => (0, 0);
     find_open_file := fun p => if p =? "/a/c.txt" then Some view_c else None;
     active_group := 0;
     transient_view_in_group := fun _ => None;
     open_file_view := fun p => if p =? "/a/c.txt" then view_c else view_d |}.

(** The same window while [/a/b/d.py] is shown as the transient preview. *)
Definition window_preview : Window :=
  {| active_view := Some view_d;
     views := [view_c; view_d];
     get_view_index := fun v => (0, Z.of_nat (view_id v) - 7);
     find_open_file := fun p => if p =? "/a/c.txt" then Some view_c
                                else if p =? "/a/b/d.py" then Some view_d else None;
     active_group := 0;
     transient_view_in_group := fun _ => Some view_d;
     open_file_view := fun p => if p =? "/a/c.txt" then view_c else view_d |}.

(** A window without tabs: its active view has no file and [views()] is
    empty. *)
Definition window_empty : Window :=
  {| active_view := Some view_blank;
     views := [];
     get_view_index := fun _ => (0, -1);
     find_open_file := fun _ => None;
     active_group := 0;
     transient_view_in_group := fun _ => None;
     open_file_view := fun _ => view_d |}.

(** A window whose [active_view()] is [None]. *)
Definition window_none : Window :=
  {| active_view := None;
     views := [];
     get_view_index := fun _ => (0, -1);
     find_open_file := fun _ => None;
     active_group := 0;
     transient_view_in_group := fun _ => None;
     open_file_view := fun _ => view_d |}.

(** The helper after [__init__] with the stock preferences' image
    patterns. *)
Definition helper0 : H.t := H.init ["*.jpg"; "*.png"; "*.gif"] ["*.pyc"; ".DS_Store"].

Definition state0 : State := {| helper := helper0; stack := []; calls := [] |}.

(** A session on [fs_abc] from the tab of [/a/c.txt]: the first panel,
    a commit on [b/], the panel of [/a/b], a highlight of [d.py]. *)
Definition unwrap (r : result State) : State :=
  match r with Ok st => st | Raise _ => state0 end.

Definition st_panel_a : State := unwrap (Nav.run window_c fs_abc state0).
Definition st_commit_b : State :=
  unwrap (Nav.open_selected_file fs_abc st_panel_a "/a/c.txt" 1).
Definition st_panel_b : State := unwrap (Nav.navigate fs_abc st_commit_b "/a/b").
Definition st_preview_d : State := unwrap (Nav.show_preview fs_abc st_panel_b "/a/b" 1).

(** The same from a window without tabs, started in the working directory
    [/a], with [c.txt] highlighted. *)
Definition st_panel_cwd : State := unwrap (Nav.run window_empty fs_abc state0).
Definition st_preview_c : State := unwrap (Nav.show_preview fs_abc st_panel_cwd "/a" 2).

End Fixtures.

Import Fixtures.

(* ================================================================== *)
(** ** Notions used in the statements *)
(* ================================================================== *)

(** A name without a slash. *)
Definition sepfree (s : string) : Prop := contains "/" s = false.

(** A component that [normpath] keeps and that is not [..]. *)
Definition plain (c : string) : Prop := c <> "" /\ c <> "." /\ c <> "..".

(** The component lists that [normpath] produces: [k] leading [..] (none
    on an absolute path), then plain names. *)
Definition shape (initial : nat) (R : list string) : Prop :=
  exists k R', R = (repeat ".." k ++ R')%list
               /\ (initial <> 0%nat -> k = 0%nat)
               /\ Forall plain R'.

(** The components computed by [normpath]. *)
Definition norm_comps (p : string) : list string :=
  fold_left (norm_step (initial_slashes p)) (split_sep p) [].

(** The children that receive an entry: not skipped, not the current
    file. *)
Definition keeps (fs : FileSystem) (current_file file_path : string) : bool :=
  negb (H.skip_file fs file_path) && negb (H.is_same_file fs file_path current_file).

Definition listed_children (self : H.t) (fs : FileSystem) (current_file : string)
  : list string :=
  filter (keeps fs current_file) (H.filtered_children self fs current_file).

(** What [get_listing] puts before the children. *)
Definition parent_entries (fs : FileSystem) (current_file : string)
  : os_result (list entry) :=
  let path := H.get_dir_from_path fs current_file in
  let parent := H.parent_of fs path in
  match samefile fs path parent with
  | Returns same => Returns (if negb same then [(pardir, parent)] else [])
  | RaisesOSError => RaisesOSError
  end.

(** Following the spec's words: a list of children minus those that are
    the file [f] itself, by file-system identity. *)
Definition without_file (fs : FileSystem) (f : string) (children : list string)
  : list string :=
  filter (fun c => negb (H.is_same_file fs c f)) children.

(** A browsing session as the host drives it.  [browsing cwd st]: the
    panel listing [cwd] is open in state [st].  It is so after [run], after
    a highlight, and after a commit on a directory followed by the
    [navigate] that the commit scheduled -- to any depth. *)
Inductive browsing (window : Window) (fs : FileSystem) (st0 : State)
  : string -> State -> Prop :=
| browsing_start r h st :
    H.track_calling_view (helper st0) window = Ok (r, h) ->
    Nav.run window fs st0 = Ok st ->
    browsing window fs st0 (Nav.starting_file fs r) st
| browsing_highlight cwd st i st' :
    browsing window fs st0 cwd st ->
    Nav.show_preview fs st cwd i = Ok st' ->
    browsing window fs st0 cwd st'
| browsing_descend cwd st i st1 s st2 :
    browsing window fs st0 cwd st ->
    Nav.open_selected_file fs st cwd i = Ok st1 ->
    last (calls st1) (run_command "") = set_timeout_async_navigate s ->
    Nav.navigate fs st1 s = Ok st2 ->
    browsing window fs st0 s st2.

(** The origin recorded by [track_calling_view]. *)
Definition origin_kept (window : Window) (h : H.t) : Prop :=
  H.calling_view h = active_view window
  /\ H.calling_view_is_empty h = Some (List.length (views window) =? 0)%nat.

(** What the first loop of [get_listing] computes on a listing without
    duplicates: a child that is examined and excluded is removed, and the
    child after it moves into its place and is kept without being
    examined. *)
Fixpoint skip_after_removal (excluded : string -> bool) (l : list string)
  : list string :=
  match l with
  | [] => []
  | x :: rest =>
      if excluded x
      then match rest with
           | [] => []
           | y :: rest' => y :: skip_after_removal excluded rest'
           end
      else x :: skip_after_removal excluded rest
  end.

(** [subseq l1 l2]: [l1] is [l2] with some elements left out, the others in
    the same order. *)
Inductive subseq {A : Type} : list A -> list A -> Prop :=
| subseq_nil : subseq [] []
| subseq_skip x l1 l2 : subseq l1 l2 -> subseq l1 (x :: l2)
| subseq_keep x l1 l2 : subseq l1 l2 -> subseq (x :: l1) (x :: l2).

(** The helper keeps its invariant: the [file_navigation_active] setting is
    set exactly while a preview path is stored. *)
Definition visible_iff_preview (h : H.t) : Prop :=
  H.file_navigation_active h = true <-> H.preview_file_path h <> None.

(* ================================================================== *)
(** ** The model on examples *)
(* ================================================================== *)

Example normpath_ex1 : normpath "/a/./b/../c.txt" = "/a/c.txt".
Proof. reflexivity. Qed.
Example normpath_ex2 : normpath "//a//b/" = "//a/b".
Proof. reflexivity. Qed.
Example normpath_ex3 : normpath "///a/../.." = "/".
Proof. reflexivity. Qed.
Example normpath_ex4 : normpath "a/../../b" = "../b".
Proof. reflexivity. Qed.
Example normpath_ex5 : normpath "./" = ".".
Proof. reflexivity. Qed.
Example dirname_ex1 : dirname "/a/c.txt" = "/a".
Proof. reflexivity. Qed.
Example dirname_ex2 : dirname "/c.txt" = "/".
Proof. reflexivity. Qed.
Example dirname_ex3 : dirname "c.txt" = "".
Proof. reflexivity. Qed.
Example dirname_ex4 : dirname "/a//c.txt" = "/a".
Proof. reflexivity. Qed.
Example basename_ex1 : basename "/a/c.txt" = "c.txt".
Proof. reflexivity. Qed.
Example basename_ex2 : basename "/a/b/" = "".
Proof. reflexivity. Qed.
Example splitext_ex1 : splitext "/a/c.TXT" = ("/a/c", ".TXT").
Proof. reflexivity. Qed.
Example splitext_ex2 : splitext "/a.d/c" = ("/a.d/c", "").
Proof. reflexivity. Qed.
Example splitext_ex3 : splitext "/a/.bashrc" = ("/a/.bashrc", "").
Proof. reflexivity. Qed.
Example splitext_ex4 : splitext "/a/..x.tar.gz" = ("/a/..x.tar", ".gz").
Proof. reflexivity. Qed.
Example join_ex1 : join "/a" "*" = "/a/*".
Proof. reflexivity. Qed.
Example join_ex2 : join "/" ".." = "/..".
Proof. reflexivity. Qed.
Example abspath_ex1 : abspath "/w" (join "/a/b" pardir) = "/a".
Proof. reflexivity. Qed.
Example abspath_ex2 : abspath "/w/x" (join "." pardir) = "/w".
Proof. reflexivity. Qed.
Example lower_ex : lower "*.PNG" = "*.png".
Proof. reflexivity. Qed.

Example listing_abc_from_file :
  H.get_listing helper0 fs_abc "/a/c.txt"
  = Ok [("/a/c.txt", [("..", "/"); ("b/", "/a/b")])].
Proof. reflexivity. Qed.

Example listing_abc_from_dir :
  H.get_listing helper0 fs_abc "/a"
  = Ok [("/a", [("..", "/"); ("b/", "/a/b"); ("c.txt", "/a")])].
Proof. reflexivity. Qed.

Example listing_abc_sub :
  H.get_listing helper0 fs_abc "/a/b"
  = Ok [("/a/b", [("..", "/a"); ("d.py", "/a/b")])].
Proof. reflexivity. Qed.

Example listing_root :
  H.get_listing helper0 fs_abc "/" = Ok [("/", [("a/", "/a")])].
Proof. reflexivity. Qed.

Example listing_images :
  H.get_listing helper0 fs_images "/a"
  = Ok [("/a", [("..", "/"); ("y.png", "/a"); ("z.txt", "/a")])].
Proof. reflexivity. Qed.

Example listing_missing :
  H.get_listing helper0 fs_abc "/nowhere" = Raise OSError.
Proof. reflexivity. Qed.

(* ================================================================== *)
(** ** Facts about strings and [os.path] *)
(* ================================================================== *)

Lemma append_nil_r (s : string) : s ++ "" = s.
Proof. induction s; simpl; congruence. Qed.

Lemma append_assoc (a b c : string) : (a ++ b) ++ c = a ++ (b ++ c).
Proof. induction a; simpl; congruence. Qed.

Lemma eqb_false_iff (a b : string) : (a =? b) = false <-> a <> b.
Proof.
  split; intro H.
  - intro E. apply String.eqb_eq in E. congruence.
  - destruct (a =? b) eqn:E; [apply String.eqb_eq in E; contradiction | reflexivity].
Qed.

Lemma split_sep_not_nil (s : string) : split_sep s <> [].
Proof.
  induction s as [|c r IH]; simpl; [discriminate|].
  destruct (c =? "/")%char; [discriminate|].
  destruct (split_sep r); [contradiction | discriminate].
Qed.

Lemma split_sep_sepfree (s : string) : Forall sepfree (split_sep s).
Proof.
  induction s as [|c r IH]; simpl.
  - constructor; [reflexivity | constructor].
  - destruct (c =? "/")%char eqn:E.
    + constructor; [reflexivity | assumption].
    + destruct (split_sep r) as [|h t] eqn:Er; [contradiction (split_sep_not_nil r)|].
      inversion IH; subst. constructor; [|assumption].
      unfold sepfree in *. simpl. rewrite E. assumption.
Qed.

Lemma split_sep_sepfree_id (s : string) : sepfree s -> split_sep s = [s].
Proof.
  unfold sepfree. induction s as [|c r IH]; simpl; intro H; [reflexivity|].
  apply orb_false_iff in H. destruct H as [Hc Hr].
  rewrite Hc, (IH Hr). reflexivity.
Qed.

Lemma split_sep_app (a b : string) :
  split_sep (a ++ String "/" b) = (split_sep a ++ split_sep b)%list.
Proof.
  induction a as [|c r IH]; simpl; [reflexivity|].
  destruct (c =? "/")%char; [rewrite IH; reflexivity|].
  rewrite IH.
  destruct (split_sep r) as [|h t] eqn:Er; [contradiction (split_sep_not_nil r)|].
  reflexivity.
Qed.

Lemma join_sep_cons (c : string) (R : list string) :
  R <> [] -> join_sep (c :: R) = c ++ String "/" (join_sep R).
Proof. destruct R; [contradiction | reflexivity]. Qed.

Lemma split_join (R : list string) :
  R <> [] -> Forall sepfree R -> split_sep (join_sep R) = R.
Proof.
  induction R as [|c R IH]; [contradiction|].
  intros _ HF. inversion HF as [|? ? Hc HR]; subst.
  destruct R as [|c' R'].
  - simpl. apply split_sep_sepfree_id; assumption.
  - rewrite join_sep_cons by discriminate.
    rewrite split_sep_app, split_sep_sepfree_id by assumption.
    rewrite IH by (assumption || discriminate). reflexivity.
Qed.

(** *** The shape of [normpath]'s component list *)

Lemma shape_nil initial : shape initial [].
Proof. exists 0%nat, []. repeat split; constructor. Qed.

Lemma last_app_single {A} (l : list A) (x d : A) : last (l ++ [x]) d = x.
Proof. apply last_last. Qed.

Lemma last_app_nonempty {A} (l l' : list A) (d : A) :
  l' <> [] -> last (l ++ l') d = last l' d.
Proof.
  intro H. induction l as [|a l IH]; [reflexivity|].
  simpl. destruct (l ++ l')%list eqn:E; [|exact IH].
  apply app_eq_nil in E. tauto.
Qed.

Lemma last_repeat (k : nat) (d : string) : last (repeat ".." (S k)) d = "..".
Proof. induction k; [reflexivity|]. simpl in *. exact IHk. Qed.

Lemma repeat_snoc (k : nat) : (repeat ".." k ++ [".."])%list = repeat ".." (S k).
Proof. induction k; simpl; [reflexivity|]. f_equal. exact IHk. Qed.

Lemma is_nil_true {A} (l : list A) : is_nil l = true <-> l = [].
Proof. destruct l; simpl; split; congruence. Qed.

Lemma last_plain (R : list string) (d : string) :
  R <> [] -> Forall plain R -> last R d <> "..".
Proof.
  intros Hne HF.
  destruct (exists_last Hne) as [l [x ->]].
  rewrite last_last. apply Forall_app in HF. destruct HF as [_ HF].
  inversion HF; subst. unfold plain in *. tauto.
Qed.

Lemma norm_step_shape initial acc comp :
  shape initial acc -> shape initial (norm_step initial acc comp).
Proof.
  intros (k & R' & -> & Hk & HF). unfold norm_step.
  destruct (comp =? "") eqn:E1; simpl; [exists k, R'; auto|].
  destruct (comp =? ".") eqn:E2; simpl; [exists k, R'; auto|].
  apply eqb_false_iff in E1, E2.
  destruct (comp =? "..") eqn:E3; simpl.
  - apply String.eqb_eq in E3. subst comp.
    destruct R' as [|r R'].
    + rewrite app_nil_r.
      destruct k as [|k].
      * simpl. destruct (initial =? 0)%nat eqn:Ei; simpl.
        -- exists 1%nat, []. split; [reflexivity|]. split; [|constructor].
           apply Nat.eqb_eq in Ei. intro; contradiction.
        -- exists 0%nat, []. split; [reflexivity|]. split; [reflexivity|constructor].
      * assert (initial = 0%nat) as ->.
        { destruct initial; [reflexivity|]. discriminate Hk. discriminate. }
        replace (is_nil (repeat ".." (S k))) with false by reflexivity.
        rewrite last_repeat. simpl.
        exists (S (S k)), []. rewrite app_nil_r. split; [|split; [intro; contradiction|constructor]].
        simpl. f_equal. exact (repeat_snoc k).
    + assert (Hl : last (repeat ".." k ++ r :: R')%list "" <> "..").
      { rewrite last_app_nonempty by discriminate. apply last_plain; [discriminate | assumption]. }
      apply eqb_false_iff in Hl. rewrite Hl.
      assert (Hn : is_nil (repeat ".." k ++ r :: R')%list = false) by (destruct k; reflexivity).
      rewrite Hn. simpl. rewrite andb_false_r. simpl.
      exists k, (removelast (r :: R')). split; [|split; [assumption|]].
      * apply removelast_app. discriminate.
      * destruct (@exists_last _ (r :: R')) as [l [x Hx]]; [discriminate|].
        rewrite Hx in *. rewrite removelast_last.
        apply Forall_app in HF. tauto.
  - apply eqb_false_iff in E3.
    exists k, (R' ++ [comp])%list. split; [|split; [assumption|]].
    + rewrite app_assoc. reflexivity.
    + apply Forall_app. split; [assumption|]. constructor; [|constructor].
      unfold plain; tauto.
Qed.

Lemma fold_norm_shape initial comps acc :
  shape initial acc -> shape initial (fold_left (norm_step initial) comps acc).
Proof.
  revert acc. induction comps as [|c cs IH]; intros acc H; simpl; [assumption|].
  apply IH, norm_step_shape, H.
Qed.

Lemma norm_step_sepfree initial acc comp :
  Forall sepfree acc -> sepfree comp -> Forall sepfree (norm_step initial acc comp).
Proof.
  intros Ha Hc. unfold norm_step.
  destruct ((comp =? "") || (comp =? ".")); [assumption|].
  match goal with |- context [if ?b then _ else _] => destruct b end.
  - apply Forall_app. split; [assumption | constructor; [assumption | constructor]].
  - destruct acc as [|a acc']; [constructor|].
    destruct (@exists_last _ (a :: acc')) as [l [x Hx]]; [discriminate|].
    rewrite Hx in *. rewrite removelast_last. apply Forall_app in Ha. tauto.
Qed.

Lemma fold_norm_sepfree initial comps acc :
  Forall sepfree acc -> Forall sepfree comps ->
  Forall sepfree (fold_left (norm_step initial) comps acc).
Proof.
  revert acc. induction comps as [|c cs IH]; intros acc Ha Hc; simpl; [assumption|].
  inversion Hc; subst. apply IH; [apply norm_step_sepfree|]; assumption.
Qed.

Lemma shape_middle (k : nat) (acc : list string) (x : string) (X R' : list string) :
  (acc ++ x :: X)%list = (repeat ".." k ++ R')%list ->
  Forall plain R' ->
  (x = ".." /\ acc = repeat ".." (List.length acc) /\ k <> 0%nat) \/ plain x.
Proof.
  revert k. induction acc as [|a acc IH]; intros k E HF.
  - destruct k as [|k]; simpl in E.
    + right. subst R'. inversion HF; assumption.
    + left. inversion E. repeat split. discriminate.
  - destruct k as [|k]; simpl in E.
    + right. subst R'. inversion HF as [|? ? _ HF']; subst.
      apply Forall_app in HF'. destruct HF' as [_ HF']. inversion HF'; assumption.
    + inversion E as [[Ea E']]. destruct (IH k E' HF) as [(Hx & Hacc & _) | Hp].
      * left. split; [assumption|]. split; [|discriminate].
        simpl. f_equal. exact Hacc.
      * right. assumption.
Qed.

(** A list of that shape is left as it is by the loop. *)
Lemma fold_norm_fixed initial X acc :
  shape initial (acc ++ X)%list ->
  fold_left (norm_step initial) X acc = (acc ++ X)%list.
Proof.
  revert acc. induction X as [|x X IH]; intros acc H; simpl.
  - rewrite app_nil_r. reflexivity.
  - assert (Hstep : norm_step initial acc x = (acc ++ [x])%list).
    { destruct H as (k & R' & E & Hk & HF). unfold norm_step.
      destruct (shape_middle k acc x X R' E HF) as [(Hx & Hacc & Hk0) | (H1 & H2 & H3)].
      - subst x. simpl.
        assert (initial = 0%nat) as ->.
        { destruct initial; [reflexivity|]. exfalso. apply Hk0, Hk. discriminate. }
        rewrite Hacc. destruct (List.length acc) as [|j]; [reflexivity|].
        replace (is_nil (repeat ".." (S j))) with false by reflexivity.
        rewrite last_repeat. reflexivity.
      - apply eqb_false_iff in H1, H2, H3. rewrite H1, H2, H3. reflexivity. }
    rewrite Hstep. rewrite IH; rewrite <- app_assoc; [reflexivity | exact H].
Qed.

Lemma shape_plain_or_dotdot initial R :
  shape initial R -> Forall (fun c => c <> "" /\ c <> ".") R.
Proof.
  intros (k & R' & -> & _ & HF). apply Forall_app. split.
  - induction k; simpl; constructor; [split; discriminate | assumption].
  - eapply Forall_impl; [|exact HF]. unfold plain. tauto.
Qed.

(** *** Leading slashes *)

Lemma initial_slashes_cases (p : string) :
  initial_slashes p = 0%nat \/ initial_slashes p = 1%nat \/ initial_slashes p = 2%nat.
Proof.
  unfold initial_slashes.
  destruct (startswith p "/"); [|tauto].
  destruct (startswith p "//" && negb (startswith p "///")); tauto.
Qed.

Lemma split_sep_slashes (n : nat) (s : string) :
  split_sep (slashes n ++ s) = (repeat "" n ++ split_sep s)%list.
Proof. induction n; simpl; [reflexivity|]. rewrite IHn. reflexivity. Qed.

Lemma fold_norm_empties initial (n : nat) (X acc : list string) :
  fold_left (norm_step initial) (repeat "" n ++ X)%list acc
  = fold_left (norm_step initial) X acc.
Proof. induction n; simpl; [reflexivity|]. exact IHn. Qed.

Lemma sepfree_head (c : string) :
  sepfree c -> c <> "" -> startswith c "/" = false.
Proof.
  unfold sepfree. destruct c as [|a r]; [contradiction|]. simpl.
  intros H _. apply orb_false_iff in H. destruct H as [H _]. rewrite H. reflexivity.
Qed.

Lemma startswith_sep_append (a b : string) :
  a <> "" -> startswith (a ++ b) "/" = startswith a "/".
Proof. destruct a; [contradiction|]. intros _. simpl. reflexivity. Qed.

Lemma join_sep_head (R : list string) :
  Forall sepfree R -> Forall (fun c => c <> "" /\ c <> ".") R ->
  startswith (join_sep R) "/" = false.
Proof.
  intros HS HP. destruct R as [|c R]; [reflexivity|].
  inversion HS; subst. inversion HP as [|? ? [Hc _] _]; subst.
  destruct R as [|c' R].
  - simpl. apply sepfree_head; assumption.
  - rewrite join_sep_cons by discriminate.
    rewrite startswith_sep_append by assumption. apply sepfree_head; assumption.
Qed.

Lemma join_sep_empty (R : list string) :
  Forall (fun c => c <> "" /\ c <> ".") R -> join_sep R = "" -> R = [].
Proof.
  intros HP E. destruct R as [|c R]; [reflexivity|].
  inversion HP as [|? ? [Hc _] _]; subst. exfalso.
  destruct R as [|c' R].
  - simpl in E. contradiction.
  - rewrite join_sep_cons in E by discriminate.
    destruct c; [contradiction | discriminate].
Qed.

Lemma initial_slashes_rebuilt (n : nat) (R : list string) :
  (n <= 2)%nat ->
  Forall sepfree R -> Forall (fun c => c <> "" /\ c <> ".") R ->
  initial_slashes (slashes n ++ join_sep R) = n.
Proof.
  intros Hn HS HP. pose proof (join_sep_head R HS HP) as Hh.
  revert Hh. generalize (join_sep R). intros j Hh.
  unfold initial_slashes.
  destruct n as [|[|[|n]]]; [| | |lia]; destruct j as [|a r];
    simpl in *; try reflexivity;
    rewrite andb_true_r in Hh; rewrite ?andb_true_r; rewrite Hh; reflexivity.
Qed.

Lemma normpath_unfold (p : string) :
  p <> "" ->
  normpath p = (if slashes (initial_slashes p) ++ join_sep (norm_comps p) =? ""
                then "." else slashes (initial_slashes p) ++ join_sep (norm_comps p)).
Proof.
  intro H. unfold normpath. apply eqb_false_iff in H. rewrite H. reflexivity.
Qed.

Lemma norm_comps_shape (p : string) : shape (initial_slashes p) (norm_comps p).
Proof. apply fold_norm_shape, shape_nil. Qed.

Lemma norm_comps_sepfree (p : string) : Forall sepfree (norm_comps p).
Proof. apply fold_norm_sepfree; [constructor | apply split_sep_sepfree]. Qed.

(** A path rebuilt from normalised components is a fixed point. *)
Lemma normpath_rebuilt (n : nat) (R : list string) :
  (n <= 2)%nat -> shape n R -> Forall sepfree R ->
  slashes n ++ join_sep R <> "" ->
  normpath (slashes n ++ join_sep R) = slashes n ++ join_sep R.
Proof.
  intros Hn Hs HS Hne.
  pose proof (shape_plain_or_dotdot n R Hs) as HP.
  rewrite normpath_unfold by assumption.
  unfold norm_comps. rewrite (initial_slashes_rebuilt n R Hn HS HP).
  rewrite split_sep_slashes, fold_norm_empties.
  assert (HR : fold_left (norm_step n) (split_sep (join_sep R)) [] = R).
  { destruct R as [|c R']; [reflexivity|].
    rewrite split_join by (assumption || discriminate).
    apply (fold_norm_fixed n (c :: R') []). exact Hs. }
  rewrite HR. apply eqb_false_iff in Hne. rewrite Hne. reflexivity.
Qed.

Lemma normpath_idempotent (p : string) : normpath (normpath p) = normpath p.
Proof.
  destruct (String.eqb_spec p "") as [->|Hp]; [reflexivity|].
  rewrite (normpath_unfold p Hp).
  destruct (slashes (initial_slashes p) ++ join_sep (norm_comps p) =? "") eqn:E;
    [reflexivity|].
  apply eqb_false_iff in E.
  apply normpath_rebuilt; try assumption.
  - pose proof (initial_slashes_cases p). lia.
  - apply norm_comps_shape.
  - apply norm_comps_sepfree.
Qed.

(** *** [dirname], [basename] and [join] *)

Lemma rfind_from_absent (c : ascii) (s : string) (i last : Z) :
  contains c s = false -> rfind_from c s i last = last.
Proof.
  revert i last. induction s as [|a r IH]; intros i last H; simpl in *; [reflexivity|].
  apply orb_false_iff in H. destruct H as [Ha Hr]. rewrite Ha. apply IH, Hr.
Qed.

Lemma rfind_from_app (c : ascii) (d n : string) (i last : Z) :
  contains c n = false ->
  rfind_from c (d ++ String c n) i last = i + Z.of_nat (String.length d).
Proof.
  intro H. revert i last. induction d as [|a r IH]; intros i last.
  - simpl. rewrite Ascii.eqb_refl, rfind_from_absent by assumption. lia.
  - cbn [append rfind_from String.length]. rewrite IH. lia.
Qed.

Lemma rfind_from_bounds (c : ascii) (s : string) (i last : Z) :
  -1 <= last < i ->
  -1 <= rfind_from c s i last < i + Z.of_nat (String.length s).
Proof.
  revert i last. induction s as [|a r IH]; intros i last H.
  - simpl. lia.
  - cbn [rfind_from String.length].
    destruct (a =? c)%char.
    + specialize (IH (i + 1) i). lia.
    + specialize (IH (i + 1) last). lia.
Qed.

Lemma rfind_bounds (c : ascii) (s : string) :
  -1 <= rfind c s < Z.of_nat (String.length s).
Proof.
  unfold rfind. destruct s as [|a r].
  - simpl. lia.
  - pose proof (rfind_from_bounds c (String a r) 0 (-1)). lia.
Qed.

(** The loop of [splitext] stops by itself: with fuel for every index
    between [lo] and [hi], more fuel changes nothing; the length of the
    path is enough. *)
Lemma has_non_dot_enough (fuel extra : nat) (p : string) (lo hi : Z) :
  hi - lo <= Z.of_nat fuel ->
  has_non_dot (fuel + extra) p lo hi = has_non_dot fuel p lo hi.
Proof.
  revert lo. induction fuel as [|fuel IH]; intros lo H.
  - simpl. destruct extra; [reflexivity|]. simpl.
    assert (E : (lo <? hi)%Z = false) by (apply Z.ltb_ge; lia).
    rewrite E. reflexivity.
  - simpl. destruct (lo <? hi)%Z; [|reflexivity].
    destruct (negb (char_at lo p =? ".")); [reflexivity|].
    apply IH. lia.
Qed.

Lemma splitext_fuel (extra : nat) (p : string) :
  has_non_dot (String.length p + extra) p (rfind "/" p + 1) (rfind "." p)
  = has_non_dot (String.length p) p (rfind "/" p + 1) (rfind "." p).
Proof.
  apply has_non_dot_enough.
  pose proof (rfind_bounds "/" p). pose proof (rfind_bounds "." p). lia.
Qed.

Lemma take_app (d x : string) (k : nat) :
  take (String.length d + k) (d ++ x) = d ++ take k x.
Proof. induction d; simpl; [reflexivity | congruence]. Qed.

Lemma drop_app (d x : string) (k : nat) :
  drop (String.length d + k) (d ++ x) = drop k x.
Proof. induction d; simpl; [reflexivity | assumption]. Qed.

Lemma all_sep_app (a b : string) : all_sep (a ++ b) = all_sep a && all_sep b.
Proof.
  induction a as [|c r IH]; simpl; [reflexivity|].
  rewrite IH, andb_assoc. reflexivity.
Qed.

Lemma endswith_sep_cons (c : ascii) (r : string) :
  r <> "" -> endswith_sep (String c r) = endswith_sep r.
Proof. destruct r; [contradiction | reflexivity]. Qed.

Lemma endswith_sep_app (a b : string) :
  b <> "" -> endswith_sep (a ++ b) = endswith_sep b.
Proof.
  intro H. induction a as [|c r IH]; [reflexivity|].
  cbn [append]. rewrite endswith_sep_cons; [exact IH|].
  destruct r; simpl; [assumption | discriminate].
Qed.

Lemma sepfree_endswith (c : string) : sepfree c -> endswith_sep c = false.
Proof.
  unfold sepfree. induction c as [|a r IH]; [reflexivity|].
  simpl. intro H. apply orb_false_iff in H. destruct H as [Ha Hr].
  destruct r; [exact Ha | apply IH, Hr].
Qed.

Lemma all_sep_endswith (d : string) :
  d <> "" -> all_sep d = true -> endswith_sep d = true.
Proof.
  induction d as [|a r IH]; [contradiction|]. intros _ H.
  simpl in H. apply andb_true_iff in H. destruct H as [Ha Hr].
  destruct r; [exact Ha|]. rewrite endswith_sep_cons by discriminate.
  apply IH; [discriminate | assumption].
Qed.

Lemma rstrip_sep_cons (c : ascii) (r : string) :
  rstrip_sep (String c r)
  = if (c =? "/")%char && (rstrip_sep r =? "") then "" else String c (rstrip_sep r).
Proof. reflexivity. Qed.

Lemma rstrip_sep_snoc (d : string) : rstrip_sep (d ++ "/") = rstrip_sep d.
Proof.
  induction d as [|a r IH]; [reflexivity|].
  cbn [append]. rewrite !rstrip_sep_cons, IH. reflexivity.
Qed.

Lemma rstrip_sep_id (d : string) : endswith_sep d = false -> rstrip_sep d = d.
Proof.
  induction d as [|a r IH]; [reflexivity|]. intro H.
  destruct r as [|b r'].
  - simpl in *. rewrite H. reflexivity.
  - rewrite endswith_sep_cons in H by discriminate.
    rewrite rstrip_sep_cons, (IH H). simpl. rewrite andb_false_r. reflexivity.
Qed.

Lemma join_sep_endswith (R : list string) :
  R <> [] -> Forall sepfree R -> Forall (fun c => c <> "" /\ c <> ".") R ->
  join_sep R <> "" /\ endswith_sep (join_sep R) = false.
Proof.
  induction R as [|c R IH]; [contradiction|]. intros _ HS HP.
  inversion HS; subst. inversion HP as [|? ? [Hc _] HP']; subst.
  destruct R as [|c' R'].
  - simpl. split; [assumption | apply sepfree_endswith; assumption].
  - rewrite join_sep_cons by discriminate.
    destruct IH as [IH1 IH2]; [discriminate | assumption | assumption |].
    split; [destruct c; [contradiction | discriminate]|].
    rewrite endswith_sep_app by discriminate.
    rewrite endswith_sep_cons by assumption. exact IH2.
Qed.

(** A normalised path ends with a slash only when it is [/] or [//]. *)
Lemma normpath_fixed_tail (d : string) :
  normpath d = d ->
  d = "/" \/ d = "//" \/ (d <> "" /\ endswith_sep d = false).
Proof.
  intro H.
  destruct (String.eqb_spec d "") as [->|Hd]; [discriminate H|].
  rewrite normpath_unfold in H by assumption.
  pose proof (norm_comps_shape d) as Hs.
  pose proof (norm_comps_sepfree d) as HS.
  pose proof (shape_plain_or_dotdot _ _ Hs) as HP.
  pose proof (initial_slashes_cases d) as Hn.
  destruct (slashes (initial_slashes d) ++ join_sep (norm_comps d) =? "") eqn:E.
  - right. right. subst d. split; [discriminate | reflexivity].
  - destruct (norm_comps d) as [|c R] eqn:ER.
    + simpl in H. rewrite append_nil_r in H.
      destruct Hn as [Hn|[Hn|Hn]]; rewrite Hn in H; simpl in H; subst d;
        [contradiction | tauto | tauto].
    + right. right. split; [assumption|]. rewrite <- H.
      destruct (join_sep_endswith (c :: R)) as [H1 H2];
        [discriminate | assumption | assumption |].
      rewrite endswith_sep_app by assumption. exact H2.
Qed.

Lemma sepfree_startswith (n : string) : sepfree n -> startswith n "/" = false.
Proof.
  unfold sepfree. destruct n as [|a r]; [reflexivity|]. simpl.
  intro H. apply orb_false_iff in H. destruct H as [H _]. rewrite H. reflexivity.
Qed.

Lemma join_plain (d n : string) :
  d <> "" -> endswith_sep d = false -> sepfree n ->
  join d n = d ++ String "/" n.
Proof.
  intros Hd He Hn. unfold join.
  rewrite (sepfree_startswith n Hn), He.
  apply eqb_false_iff in Hd. rewrite Hd. reflexivity.
Qed.

Lemma dirname_basename_snoc (d n : string) :
  d <> "" -> endswith_sep d = false -> sepfree n ->
  dirname (d ++ String "/" n) = d /\ basename (d ++ String "/" n) = n.
Proof.
  intros Hd He Hn. unfold dirname, basename, rfind, slice_to, slice_from.
  rewrite rfind_from_app by exact Hn.
  replace (Z.to_nat (0 + Z.of_nat (String.length d) + 1))
    with (String.length d + 1)%nat by lia.
  rewrite take_app, drop_app. simpl.
  assert (Ha : all_sep (d ++ "/") = false).
  { rewrite all_sep_app. destruct (all_sep d) eqn:E; [|reflexivity].
    rewrite (all_sep_endswith d Hd E) in He. discriminate. }
  assert (Hne : (d ++ "/" =? "") = false) by (destruct d; [contradiction | reflexivity]).
  rewrite Ha, Hne. simpl.
  rewrite rstrip_sep_snoc, rstrip_sep_id by assumption. tauto.
Qed.

(** Joining a name to a normalised directory is undone by [dirname] and
    [basename]. *)
Lemma dirname_basename_join (d n : string) :
  normpath d = d -> sepfree n ->
  dirname (join d n) = d /\ basename (join d n) = n.
Proof.
  intros Hd Hn.
  destruct (normpath_fixed_tail d Hd) as [->|[->|[Hne He]]].
  - unfold join. rewrite (sepfree_startswith n Hn). simpl.
    unfold dirname, basename, rfind, slice_to, slice_from. simpl.
    rewrite rfind_from_absent by exact Hn. simpl. tauto.
  - unfold join. rewrite (sepfree_startswith n Hn). simpl.
    unfold dirname, basename, rfind, slice_to, slice_from. simpl.
    rewrite rfind_from_absent by exact Hn. simpl. tauto.
  - rewrite join_plain by assumption. apply dirname_basename_snoc; assumption.
Qed.

(** *** The parent of an absolute normalised path *)

Lemma join_sep_snoc (R : list string) (x : string) :
  R <> [] -> join_sep (R ++ [x]) = join_sep R ++ String "/" x.
Proof.
  induction R as [|c R IH]; [contradiction|]. intros _.
  destruct R as [|c' R'].
  - reflexivity.
  - change ((c :: c' :: R') ++ [x])%list with (c :: ((c' :: R') ++ [x]))%list.
    rewrite join_sep_cons by (simpl; discriminate).
    rewrite IH by discriminate.
    rewrite (join_sep_cons c (c' :: R')) by discriminate.
    rewrite append_assoc. reflexivity.
Qed.

Lemma all_sep_slashes (n : nat) : all_sep (slashes n) = true.
Proof. induction n; simpl; [reflexivity | assumption]. Qed.

Lemma slashes_not_empty (n : nat) (s : string) : n <> 0%nat -> slashes n ++ s <> "".
Proof. destruct n; [contradiction | discriminate]. Qed.

Lemma initial_slashes_abs (d : string) : isabs d = true -> initial_slashes d <> 0%nat.
Proof.
  unfold isabs, initial_slashes. intros ->.
  destruct (startswith d "//" && negb (startswith d "///")); discriminate.
Qed.

(** For an absolute normalised path other than a root, going to [..] and
    normalising is taking [dirname]. *)
Lemma normpath_pardir_dirname (d : string) :
  normpath d = d -> isabs d = true -> all_sep d = false ->
  normpath (join d pardir) = dirname d.
Proof.
  intros Hd Habs Hall.
  assert (Hne : d <> "") by (intros ->; discriminate).
  pose proof (initial_slashes_abs d Habs) as Hn0.
  pose proof (initial_slashes_cases d) as Hn.
  pose proof (norm_comps_shape d) as Hs.
  pose proof (norm_comps_sepfree d) as HS.
  pose proof (shape_plain_or_dotdot _ _ Hs) as HP.
  assert (Hd' : d = slashes (initial_slashes d) ++ join_sep (norm_comps d)).
  { rewrite normpath_unfold in Hd by assumption.
    pose proof (slashes_not_empty (initial_slashes d) (join_sep (norm_comps d)) Hn0) as E.
    apply eqb_false_iff in E. rewrite E in Hd. symmetry. exact Hd. }
  set (n := initial_slashes d) in *. set (R := norm_comps d) in *.
  assert (HR : R <> []).
  { intro E. rewrite E in Hd'. simpl in Hd'. rewrite append_nil_r in Hd'.
    rewrite Hd', all_sep_slashes in Hall. discriminate. }
  assert (Hplain : Forall plain R).
  { destruct Hs as (k & R' & E & Hk & HF). rewrite (Hk Hn0) in E. simpl in E.
    rewrite E. exact HF. }
  destruct (exists_last HR) as (R0 & c & ER).
  assert (Hc : sepfree c /\ plain c).
  { rewrite ER in HS, Hplain. apply Forall_app in HS, Hplain.
    destruct HS as [_ HS], Hplain as [_ Hp]. inversion HS; inversion Hp; tauto. }
  destruct Hc as [Hcs Hcp].
  (* the left-hand side *)
  assert (Htail : endswith_sep d = false).
  { destruct (normpath_fixed_tail d Hd) as [->|[->|[_ H]]]; [discriminate.. | exact H]. }
  assert (Hj : join d pardir = slashes n ++ join_sep (R ++ [pardir])).
  { rewrite join_plain by (assumption || reflexivity).
    rewrite join_sep_snoc by assumption. rewrite <- append_assoc, <- Hd'. reflexivity. }
  assert (HS' : Forall sepfree (R ++ [pardir])).
  { apply Forall_app. split; [assumption | constructor; [reflexivity | constructor]]. }
  assert (HP' : Forall (fun c => c <> "" /\ c <> ".") (R ++ [pardir])).
  { apply Forall_app. split; [assumption|].
    constructor; [split; discriminate | constructor]. }
  assert (Hlhs : normpath (join d pardir) = slashes n ++ join_sep (removelast R)).
  { rewrite Hj. rewrite normpath_unfold by (apply slashes_not_empty; exact Hn0).
    unfold norm_comps.
    rewrite (initial_slashes_rebuilt n (R ++ [pardir])) by (assumption || lia).
    rewrite split_sep_slashes, fold_norm_empties.
    rewrite split_join by (assumption || (destruct R; discriminate)).
    rewrite fold_left_app. rewrite (fold_norm_fixed n R []) by exact Hs.
    simpl. unfold norm_step. simpl.
    assert (E1 : (n =? 0)%nat = false) by (apply Nat.eqb_neq; exact Hn0).
    assert (E2 : (last R "" =? "..") = false).
    { apply eqb_false_iff. apply last_plain; assumption. }
    rewrite E1, E2. simpl. rewrite andb_false_r. simpl.
    pose proof (slashes_not_empty n (join_sep (removelast R)) Hn0) as E.
    apply eqb_false_iff in E. rewrite E. reflexivity. }
  rewrite Hlhs, ER, removelast_last.
  (* the right-hand side *)
  rewrite Hd', ER.
  destruct R0 as [|c0 R0'].
  - simpl. rewrite append_nil_r.
    unfold dirname, rfind, slice_to.
    destruct Hn as [Hn|[Hn|Hn]]; [contradiction | |]; rewrite Hn; simpl;
      rewrite rfind_from_absent by exact Hcs; reflexivity.
  - rewrite join_sep_snoc by discriminate. rewrite <- append_assoc.
    assert (HS0 : Forall sepfree (c0 :: R0')).
    { rewrite ER in HS. apply Forall_app in HS. tauto. }
    assert (HP0 : Forall (fun c => c <> "" /\ c <> ".") (c0 :: R0')).
    { rewrite ER in HP. apply Forall_app in HP. tauto. }
    destruct (join_sep_endswith (c0 :: R0')) as [J1 J2];
      [discriminate | assumption | assumption |].
    symmetry. apply dirname_basename_snoc.
    + apply slashes_not_empty. exact Hn0.
    + rewrite endswith_sep_app by assumption. exact J2.
    + exact Hcs.
Qed.

Lemma parent_of_absolute (fs : FileSystem) (d : string) :
  normpath d = d -> isabs d = true -> all_sep d = false ->
  H.parent_of fs d = dirname d.
Proof.
  intros Hd Habs Hall. unfold H.parent_of, abspath.
  assert (E : isabs (join d pardir) = true).
  { destruct (normpath_fixed_tail d Hd) as [->|[->|[Hne He]]]; [discriminate.. |].
    rewrite join_plain by (assumption || reflexivity).
    unfold isabs in *. rewrite startswith_sep_append by assumption. exact Habs. }
  rewrite E. apply normpath_pardir_dirname; assumption.
Qed.

(* ================================================================== *)
(** ** The lister *)
(* ================================================================== *)

Section Lister.

Variable self : H.t.
Variable fs : FileSystem.

Lemma add_children_filter (current_file : string) (l : list string) (acc : list entry) :
  H.add_children fs current_file l acc
  = (acc ++ map (H.child_entry fs) (filter (keeps fs current_file) l))%list.
Proof.
  revert acc. induction l as [|c l IH]; intro acc; simpl.
  - rewrite app_nil_r. reflexivity.
  - unfold keeps at 1.
    destruct (H.skip_file fs c); simpl; [apply IH|].
    destruct (H.is_same_file fs c current_file); simpl; [apply IH|].
    rewrite IH, <- app_assoc. reflexivity.
Qed.

(** [get_listing] in one equation: the parent entry, if any, then one entry
    per listed child, in the order of the directory listing. *)
Lemma get_listing_entries (current_file : string) :
  H.get_listing self fs current_file
  = match parent_entries fs current_file with
    | Returns head =>
        Ok [(current_file,
             (head ++ map (H.child_entry fs) (listed_children self fs current_file))%list)]
    | RaisesOSError => Raise OSError
    end.
Proof.
  unfold H.get_listing, parent_entries, listed_children.
  destruct (samefile fs _ _); [|reflexivity].
  rewrite add_children_filter. reflexivity.
Qed.

(** The first loop stops by itself: past the length of the list, more fuel
    changes nothing. *)
Lemma exclude_loop_enough (fuel extra : nat) (l : list string) (i : nat) :
  (List.length l <= i + fuel)%nat ->
  H.exclude_loop self (fuel + extra) l i = H.exclude_loop self fuel l i.
Proof.
  revert l i. induction fuel as [|fuel IH]; intros l i Hlen.
  - simpl. destruct extra; [reflexivity|]. simpl.
    assert (E : nth_error l i = None) by (apply nth_error_None; lia).
    rewrite E. reflexivity.
  - simpl. destruct (nth_error l i) as [x|] eqn:E; [|reflexivity].
    destruct (H.is_excluded self x).
    + apply IH.
      assert (List.length (remove_first x l) <= List.length l)%nat.
      { clear. induction l as [|y l IHl]; simpl; [lia|].
        destruct (y =? x); simpl; lia. }
      lia.
    + apply IH. lia.
Qed.

Lemma filter_excluded_fuel (extra : nat) (l : list string) :
  H.exclude_loop self (List.length l + extra) l 0 = H.filter_excluded self l.
Proof. apply exclude_loop_enough. lia. Qed.

(** A path is not both a regular file and a directory. *)
Lemma isfile_not_isdir (c : string) : isfile fs c = true -> isdir fs c = false.
Proof.
  unfold isfile, isdir. destruct (stat fs c) as [st|]; [|reflexivity].
  destruct (st_mode st); (reflexivity || discriminate).
Qed.

Lemma isdir_not_isfile (c : string) : isdir fs c = true -> isfile fs c = false.
Proof.
  unfold isfile, isdir. destruct (stat fs c) as [st|]; [|reflexivity].
  destruct (st_mode st); (reflexivity || discriminate).
Qed.

Lemma child_entry_file (c : string) :
  isfile fs c = true ->
  H.child_entry fs c = (basename c, normpath (dirname c)).
Proof.
  intros Hf. unfold H.child_entry, H.get_dir_from_path.
  rewrite Hf, (isfile_not_isdir c Hf). reflexivity.
Qed.

Lemma child_entry_dir (c : string) :
  isdir fs c = true ->
  H.child_entry fs c = (basename c ++ "/", normpath c).
Proof.
  intros Hd. unfold H.child_entry, H.get_dir_from_path.
  rewrite Hd, (isdir_not_isfile c Hd). reflexivity.
Qed.

Lemma get_path_file_entry (d n : string) :
  n <> pardir -> sepfree n -> Nav.get_path (n, d) = join d n.
Proof.
  intros Hn Hs. unfold Nav.get_path. simpl.
  apply eqb_false_iff in Hn. rewrite Hn, (sepfree_endswith n Hs). reflexivity.
Qed.

End Lister.

(** *** C1 *)

(** In [/a], the entry of the file [/a/c.txt] is [("c.txt", "/a")]: its
    target is the directory, and no entry of the listing has the file's own
    path as target. *)
Lemma C1_counterexample :
  isfile fs_abc "/a/c.txt" = true
  /\ In "/a/c.txt" (listed_children helper0 fs_abc "/a")
  /\ H.child_entry fs_abc "/a/c.txt" <> (basename "/a/c.txt", "/a/c.txt")
  /\ exists L, H.get_listing helper0 fs_abc "/a" = Ok [("/a", L)]
               /\ ~ In (basename "/a/c.txt", "/a/c.txt") L.
Proof.
  split; [reflexivity|]. split; [vm_compute; tauto|]. split; [discriminate|].
  eexists. split; [reflexivity|].
  simpl. intros [H|[H|[H|[]]]]; discriminate H.
Qed.

(** C1 (amended): for every listed child [c] that is a file, the listing
    holds the entry [(basename c, normpath (dirname c))] -- label the file
    name, target the directory that contains the file -- and [get_path]
    rebuilds the file's path from that entry: when [c] is [join d n] for a
    normalised directory [d] and a name [n], the entry is [(n, d)] and
    [get_path] gives back [c].  For a listed child that is a directory the
    entry is [(basename c ++ "/", normpath c)], and [get_path] gives its
    target. *)
Theorem C1_file_entry_targets_directory
        (self : H.t) (fs : FileSystem) (current_file c : string) (L : list entry) :
  H.get_listing self fs current_file = Ok [(current_file, L)] ->
  In c (listed_children self fs current_file) ->
  (isfile fs c = true ->
   H.child_entry fs c = (basename c, normpath (dirname c))
   /\ In (basename c, normpath (dirname c)) L
   /\ forall d n, c = join d n -> normpath d = d -> sepfree n -> n <> pardir ->
                  H.child_entry fs c = (n, d) /\ Nav.get_path (n, d) = c)
  /\ (isdir fs c = true ->
      H.child_entry fs c = (basename c ++ "/", normpath c)
      /\ In (basename c ++ "/", normpath c) L
      /\ Nav.get_path (basename c ++ "/", normpath c) = normpath c).
Proof.
  intros HL Hc.
  assert (Hin : In (H.child_entry fs c) L).
  { rewrite get_listing_entries in HL.
    destruct (parent_entries fs current_file) as [head|]; [|discriminate].
    inversion HL; subst L. apply in_or_app. right. apply in_map. exact Hc. }
  split; intros Hk.
  - pose proof (child_entry_file fs c Hk) as He.
    split; [exact He|]. split; [rewrite <- He; exact Hin|].
    intros d n -> Hnd Hs Hn.
    destruct (dirname_basename_join d n Hnd Hs) as [E1 E2].
    rewrite He, E1, E2, Hnd. split; [reflexivity|].
    apply get_path_file_entry; assumption.
  - pose proof (child_entry_dir fs c Hk) as He.
    split; [exact He|]. split; [rewrite <- He; exact Hin|].
    unfold Nav.get_path. simpl.
    rewrite endswith_sep_app by discriminate. simpl.
    rewrite orb_true_r. reflexivity.
Qed.

(** [C1_file_entry_targets_directory] on the listing of [/a]: the file
    [/a/c.txt] and the directory [/a/b]. *)
Lemma C1_witness :
  (H.child_entry fs_abc "/a/c.txt" = ("c.txt", "/a")
   /\ In ("c.txt", "/a") [("..", "/"); ("b/", "/a/b"); ("c.txt", "/a")]
   /\ Nav.get_path ("c.txt", "/a") = "/a/c.txt")
  /\ (H.child_entry fs_abc "/a/b" = ("b/", "/a/b")
      /\ In ("b/", "/a/b") [("..", "/"); ("b/", "/a/b"); ("c.txt", "/a")]
      /\ Nav.get_path ("b/", "/a/b") = "/a/b").
Proof.
  split.
  - destruct (C1_file_entry_targets_directory helper0 fs_abc "/a" "/a/c.txt"
                [("..", "/"); ("b/", "/a/b"); ("c.txt", "/a")])
      as [Hfile _].
    + reflexivity.
    + vm_compute. tauto.
    + destruct (Hfile eq_refl) as (H1 & H2 & H3).
      split; [exact H1|]. split; [exact H2|].
      destruct (H3 "/a" "c.txt") as [_ H4].
      * reflexivity.
      * reflexivity.
      * reflexivity.
      * discriminate.
      * exact H4.
  - destruct (C1_file_entry_targets_directory helper0 fs_abc "/a" "/a/b"
                [("..", "/"); ("b/", "/a/b"); ("c.txt", "/a")])
      as [_ Hdir].
    + reflexivity.
    + vm_compute. tauto.
    + exact (Hdir eq_refl).
Defined.

(** *** C2 *)

Lemma remove_first_incl (x : string) (l : list string) : incl (remove_first x l) l.
Proof.
  induction l as [|y l IH]; simpl; [apply incl_refl|].
  destruct (y =? x).
  - apply incl_tl, incl_refl.
  - apply incl_cons; [left; reflexivity | apply incl_tl, IH].
Qed.

Lemma exclude_loop_incl (self : H.t) (fuel : nat) (l : list string) (i : nat) :
  incl (H.exclude_loop self fuel l i) l.
Proof.
  revert l i. induction fuel as [|fuel IH]; intros l i; simpl; [apply incl_refl|].
  destruct (nth_error l i) as [x|]; [|apply incl_refl].
  destruct (H.is_excluded self x); [|apply IH].
  eapply incl_tran; [apply IH | apply remove_first_incl].
Qed.

Lemma filtered_children_incl (self : H.t) (fs : FileSystem) (current_file : string) :
  incl (H.filtered_children self fs current_file)
       (glob fs (join (H.get_dir_from_path fs current_file) "*")).
Proof. apply exclude_loop_incl. Qed.

(** Removing the element just read from a duplicate-free list leaves the
    elements before it in place. *)
Lemma remove_first_nth (l : list string) (i : nat) (x : string) :
  NoDup l -> nth_error l i = Some x ->
  remove_first x l = (firstn i l ++ skipn (S i) l)%list.
Proof.
  revert i. induction l as [|y l IH]; intros i Hnd Hx; [destruct i; discriminate|].
  inversion Hnd as [|? ? Hy Hnd']; subst.
  destruct i as [|i]; simpl in *.
  - inversion Hx; subst. rewrite String.eqb_refl. reflexivity.
  - destruct (String.eqb_spec y x) as [->|Hne].
    + exfalso. apply Hy. eapply nth_error_In; eassumption.
    + f_equal. apply IH; assumption.
Qed.

Lemma remove_first_NoDup (x : string) (l : list string) :
  NoDup l -> NoDup (remove_first x l).
Proof.
  induction l as [|y l IH]; intro H; simpl; [constructor|].
  inversion H as [|? ? Hy Hl]; subst.
  destruct (y =? x); [assumption|].
  constructor; [|apply IH; assumption].
  intro Hin. apply Hy. eapply remove_first_incl; eassumption.
Qed.

(** What the iterator has passed is never touched again. *)
Lemma exclude_loop_prefix (self : H.t) (fuel : nat) (l : list string) (i : nat) :
  NoDup l ->
  firstn i (H.exclude_loop self fuel l i) = firstn i l.
Proof.
  revert l i. induction fuel as [|fuel IH]; intros l i Hnd; simpl; [reflexivity|].
  destruct (nth_error l i) as [x|] eqn:E; [|reflexivity].
  assert (Hlt : (i < List.length l)%nat) by (apply nth_error_Some; congruence).
  destruct (H.is_excluded self x).
  - pose proof (IH (remove_first x l) (S i) (remove_first_NoDup x l Hnd)) as IH'.
    apply (f_equal (firstn i)) in IH'.
    rewrite !firstn_firstn in IH'. replace (Init.Nat.min i (S i)) with i in IH' by lia.
    rewrite IH'. rewrite (remove_first_nth l i x Hnd E).
    rewrite firstn_app, firstn_firstn, Nat.min_id.
    rewrite firstn_length_le by lia. rewrite Nat.sub_diag. simpl.
    apply app_nil_r.
  - pose proof (IH l (S i) Hnd) as IH'.
    apply (f_equal (firstn i)) in IH'.
    rewrite !firstn_firstn in IH'. replace (Init.Nat.min i (S i)) with i in IH' by lia.
    exact IH'.
Qed.

Lemma exclude_loop_step (self : H.t) (fuel : nat) (l : list string) (i : nat) :
  H.exclude_loop self (S fuel) l i
  = match nth_error l i with
    | None => l
    | Some file_path =>
        if H.is_excluded self file_path
        then H.exclude_loop self fuel (remove_first file_path l) (S i)
        else H.exclude_loop self fuel l (S i)
    end.
Proof. reflexivity. Qed.

(** The slip in general: when the first child of a duplicate-free listing
    is excluded, the child right after it is never examined and stays,
    whatever its extension. *)
Lemma exclude_loop_skips_neighbour (self : H.t) (x y : string) (rest : list string) :
  NoDup (x :: y :: rest) ->
  H.is_excluded self x = true ->
  exists rest', H.filter_excluded self (x :: y :: rest) = y :: rest'.
Proof.
  intros Hnd Hx. unfold H.filter_excluded.
  change (List.length (x :: y :: rest)) with (S (List.length (y :: rest))).
  rewrite exclude_loop_step. cbn [nth_error]. rewrite Hx.
  cbn [remove_first]. rewrite String.eqb_refl.
  inversion Hnd as [|? ? _ Hnd']; subst.
  pose proof (exclude_loop_prefix self (List.length (y :: rest)) (y :: rest) 1 Hnd') as Hp.
  destruct (H.exclude_loop self (List.length (y :: rest)) (y :: rest) 1) as [|z rest'] eqn:E.
  - simpl in Hp. discriminate.
  - simpl in Hp. inversion Hp; subst. exists rest'. reflexivity.
Qed.

(** C2 (the code at the failing input): [/a] lists [x.png], [y.png],
    [z.txt] in that order and ["*.png"] is an excluded pattern.  Both
    images match, but removing [x.png] while iterating makes the loop step
    over [y.png], which is listed. *)
Theorem C2_adjacent_excluded_child_is_listed :
  glob fs_images (join "/a" "*") = ["/a/x.png"; "/a/y.png"; "/a/z.txt"]
  /\ H.is_excluded helper0 "/a/x.png" = true
  /\ H.is_excluded helper0 "/a/y.png" = true
  /\ H.filtered_children helper0 fs_images "/a" = ["/a/y.png"; "/a/z.txt"]
  /\ H.get_listing helper0 fs_images "/a"
     = Ok [("/a", [("..", "/"); ("y.png", "/a"); ("z.txt", "/a")])].
Proof. repeat split. Qed.

(** *** C3 *)

Lemma snoc_sep_not_pardir (s : string) : s ++ "/" <> pardir.
Proof.
  destruct s as [|a [|b [|c r]]]; simpl; unfold pardir; try discriminate.
Qed.

Lemma child_entry_label (fs : FileSystem) (c : string) :
  basename c <> pardir -> fst (H.child_entry fs c) <> pardir.
Proof.
  intro H. unfold H.child_entry. simpl.
  destruct (isdir fs c); [apply snoc_sep_not_pardir | exact H].
Qed.

Lemma parent_of_root (fs : FileSystem) : H.parent_of fs "/" = "/".
Proof. reflexivity. Qed.

(** [/a/loop] is a directory and not the root of the file system, yet its
    listing -- reached by a commit on [loop/] in the listing of
    [/a/c.txt] -- has no parent entry: the link is the same entity as
    [/a], the parent that its path names. *)
Lemma C3_counterexample :
  isdir fs_loop_through "/a/loop" = true
  /\ H.is_same_file fs_loop_through "/a/loop" "/" = false
  /\ (exists L, H.get_listing helper0 fs_loop_through "/a/c.txt" = Ok [("/a/c.txt", L)]
                /\ In ("loop/", "/a/loop") L)
  /\ H.get_listing helper0 fs_loop_through "/a/loop"
     = Ok [("/a/loop", [("c.txt", "/a/loop")])]
  /\ forall e, In e [("c.txt", "/a/loop")] -> fst e <> pardir.
Proof.
  split; [reflexivity|]. split; [reflexivity|]. split.
  - eexists. split; [reflexivity|]. simpl. tauto.
  - split; [reflexivity|]. intros e [<-|[]]. discriminate.
Qed.

(** C3 (amended): let [path] be the directory resolved from [d] and
    [parent] the path [abspath(join(path, pardir))], which is [dirname path]
    for an absolute [path] not made of slashes only; let [os.stat] examine
    both.  When it gives them different identities ([st_ino], [st_dev]),
    entry 0 of the listing of [d] is [(pardir, parent)].  When it gives them
    the same identity, no entry of the listing is a parent entry -- globbing
    never yielding a child named [..]; that is the case of the root [/],
    whose [parent] is [/] itself, and of a directory that is a link to the
    parent named by its path. *)
Theorem C3_parent_entry_unless_same_entity
        (self : H.t) (fs : FileSystem) (d : string) (s1 s2 : stat_result) :
  let path := H.get_dir_from_path fs d in
  let parent := H.parent_of fs path in
  stat fs path = Returns s1 ->
  stat fs parent = Returns s2 ->
  (isabs path = true -> all_sep path = false -> parent = dirname path)
  /\ (st_ino s1 <> st_ino s2 \/ st_dev s1 <> st_dev s2 ->
      exists rest, H.get_listing self fs d = Ok [(d, (pardir, parent) :: rest)])
  /\ ((st_ino s1 = st_ino s2 /\ st_dev s1 = st_dev s2) \/ path = "/" ->
      (forall c, In c (glob fs (join path "*")) -> basename c <> pardir) ->
      exists L, H.get_listing self fs d = Ok [(d, L)]
                /\ forall e, In e L -> fst e <> pardir).
Proof.
  intros path parent H1 H2. split; [|split].
  - apply parent_of_absolute. unfold path, H.get_dir_from_path.
    apply normpath_idempotent.
  - intro Hdiff.
    assert (E : samestat s1 s2 = false).
    { unfold samestat. destruct Hdiff as [Hd|Hd]; apply Nat.eqb_neq in Hd; rewrite Hd;
        [reflexivity | apply andb_false_r]. }
    eexists. unfold H.get_listing, samefile. fold path. fold parent.
    rewrite H1, H2, E. simpl. rewrite add_children_filter. reflexivity.
  - intros Hsame Hg.
    assert (E : samestat s1 s2 = true).
    { destruct Hsame as [[Hi Hd]|Hroot].
      - unfold samestat. rewrite Hi, Hd, !Nat.eqb_refl. reflexivity.
      - assert (Hp : parent = path).
        { unfold parent. rewrite Hroot. apply parent_of_root. }
        rewrite Hp, H1 in H2. inversion H2. unfold samestat.
        rewrite !Nat.eqb_refl. reflexivity. }
    eexists. split.
    + unfold H.get_listing, samefile. fold path. fold parent.
      rewrite H1, H2, E. simpl. rewrite add_children_filter. reflexivity.
    + intros e He. simpl in He. apply in_map_iff in He. destruct He as (c & <- & Hc).
      apply child_entry_label, Hg.
      apply filter_In in Hc. destruct Hc as [Hc _].
      apply (filtered_children_incl self fs d). exact Hc.
Qed.

(** [C3_parent_entry_unless_same_entity] on [/a/b], whose parent is [/a],
    on the root, and on the link [/a/loop]. *)
Lemma C3_witness :
  H.parent_of fs_abc "/a/b" = "/a"
  /\ (exists rest, H.get_listing helper0 fs_abc "/a/b" = Ok [("/a/b", ("..", "/a") :: rest)])
  /\ (exists L, H.get_listing helper0 fs_abc "/" = Ok [("/", L)]
                /\ forall e, In e L -> fst e <> "..")
  /\ (exists L, H.get_listing helper0 fs_loop_through "/a/loop" = Ok [("/a/loop", L)]
                /\ forall e, In e L -> fst e <> "..").
Proof.
  split; [|split; [|split]].
  - destruct (C3_parent_entry_unless_same_entity helper0 fs_abc "/a/b" _ _ eq_refl eq_refl)
      as [H0 _].
    exact (H0 eq_refl eq_refl).
  - destruct (C3_parent_entry_unless_same_entity helper0 fs_abc "/a/b" _ _ eq_refl eq_refl)
      as (_ & H1 & _).
    apply H1. left. simpl. discriminate.
  - destruct (C3_parent_entry_unless_same_entity helper0 fs_abc "/" _ _ eq_refl eq_refl)
      as (_ & _ & H2).
    apply H2; [right; reflexivity|].
    intros c Hc. simpl in Hc. destruct Hc as [<-|[]]. discriminate.
  - destruct (C3_parent_entry_unless_same_entity helper0 fs_loop_through "/a/loop" _ _
                eq_refl eq_refl) as (_ & _ & H2).
    apply H2; [left; split; reflexivity|].
    intros c Hc. simpl in Hc. destruct Hc as [<-|[<-|[]]]; discriminate.
Defined.

(** *** C4 *)

(** [/a] holds [c.txt] and [loop], a link to [/a].  Listed from [/a], the
    link is the browsed directory itself and is left out; listed from
    [/a/c.txt] it is shown.  The listing of the file has an entry that the
    listing of its directory lacks, so it is not that listing with an entry
    removed. *)
Lemma C4_counterexample :
  isfile fs_loop "/a/c.txt" = true
  /\ H.get_listing helper0 fs_loop "/a/c.txt"
     = Ok [("/a/c.txt", [("..", "/"); ("loop/", "/a/loop")])]
  /\ H.get_listing helper0 fs_loop (dirname "/a/c.txt")
     = Ok [("/a", [("..", "/"); ("c.txt", "/a")])]
  /\ ~ incl [("..", "/"); ("loop/", "/a/loop")] [("..", "/"); ("c.txt", "/a")].
Proof.
  repeat split.
  intro Hincl. specialize (Hincl ("loop/", "/a/loop")).
  simpl in Hincl. destruct Hincl as [H|[H|[]]]; [tauto | discriminate H | discriminate H].
Qed.

Lemma filter_ext_in {A} (f g : A -> bool) (l : list A) :
  (forall x, In x l -> f x = g x) -> filter f l = filter g l.
Proof.
  induction l as [|a l IH]; intro H; simpl; [reflexivity|].
  rewrite (H a) by (left; reflexivity).
  rewrite IH by (intros; apply H; right; assumption). reflexivity.
Qed.

Lemma filter_filter {A} (f g : A -> bool) (l : list A) :
  filter f (filter g l) = filter (fun x => g x && f x) l.
Proof.
  induction l as [|a l IH]; simpl; [reflexivity|].
  destruct (g a); simpl; [destruct (f a)|]; rewrite IH; reflexivity.
Qed.

(** [os.path.exists] answers [False] where [os.stat] raises: the handler
    of [skip_file] is never entered and no child is ever skipped. *)
Lemma exists_never_raises (fs : FileSystem) (p : string) :
  exists_ fs p = Returns (is_returned (stat fs p)).
Proof. unfold exists_, is_returned. destruct (stat fs p); reflexivity. Qed.

Lemma skip_file_never_skips (fs : FileSystem) (p : string) :
  H.skip_file fs p = false.
Proof. unfold H.skip_file. rewrite exists_never_raises. reflexivity. Qed.

Lemma is_same_file_self (fs : FileSystem) (a : string) :
  H.is_same_file fs a a = is_returned (stat fs a).
Proof.
  unfold H.is_same_file, samefile. destruct (stat fs a) as [sa|]; [|reflexivity].
  unfold samestat. rewrite !Nat.eqb_refl. reflexivity.
Qed.

(** C4 (amended): let [f] be a file and [d] its containing directory, and
    let no child of [d] be the same file-system entity as [d] itself.  When
    the directory and its parent can be examined, the listing of [d] is the
    parent entry, if any, followed by the entry of every child left by the
    extension filter, and the listing of [f] is that listing without the
    entries of the children that are the same file as [f] -- [f] itself
    among them; when one of the two cannot be examined, both calls
    raise. *)
Theorem C4_listing_of_file (self : H.t) (fs : FileSystem) (f d : string) :
  isfile fs f = true ->
  isfile fs d = false ->
  normpath d = normpath (dirname f) ->
  (forall c, In c (H.filtered_children self fs d) -> H.is_same_file fs c d = false) ->
  let path := normpath d in
  let parent := H.parent_of fs path in
  let children := H.filtered_children self fs d in
  (forall s1 s2,
      stat fs path = Returns s1 -> stat fs parent = Returns s2 ->
      let head := if samestat s1 s2 then [] else [(pardir, parent)] in
      H.get_listing self fs d
      = Ok [(d, (head ++ map (H.child_entry fs) children)%list)]
      /\ H.get_listing self fs f
         = Ok [(f, (head ++ map (H.child_entry fs) (without_file fs f children))%list)])
  /\ (stat fs path = RaisesOSError \/ stat fs parent = RaisesOSError ->
      H.get_listing self fs d = Raise OSError
      /\ H.get_listing self fs f = Raise OSError)
  /\ ~ In f (without_file fs f children)
  /\ (forall c, In c children -> H.is_same_file fs c f = false ->
                In c (without_file fs f children)).
Proof.
  intros Hf Hd Hn Hself path parent children.
  assert (Hpd : H.get_dir_from_path fs d = path).
  { unfold H.get_dir_from_path. rewrite Hd. reflexivity. }
  assert (Hpf : H.get_dir_from_path fs f = path).
  { unfold H.get_dir_from_path, path. rewrite Hf. symmetry. exact Hn. }
  assert (Hch : H.filtered_children self fs f = children).
  { unfold children, H.filtered_children. rewrite Hpf, Hpd. reflexivity. }
  assert (Hkd : filter (keeps fs d) children = children).
  { rewrite <- (filter_ext_in (fun _ => true)).
    - clear. induction children as [|c l IH]; simpl; [reflexivity | rewrite IH; reflexivity].
    - intros c Hc. unfold keeps. rewrite skip_file_never_skips, (Hself c Hc). reflexivity. }
  assert (Hkf : filter (keeps fs f) children = without_file fs f children).
  { unfold without_file. apply filter_ext_in. intros c _.
    unfold keeps. rewrite skip_file_never_skips. reflexivity. }
  split; [|split; [|split]].
  - intros s1 s2 H1 H2 head. unfold H.get_listing, samefile.
    rewrite Hpd, Hpf, Hch. fold parent. fold children. rewrite H1, H2.
    rewrite !add_children_filter, Hkd, Hkf. unfold head.
    destruct (samestat s1 s2); split; reflexivity.
  - intro Hr. unfold H.get_listing, samefile. rewrite Hpd, Hpf. fold parent.
    destruct Hr as [Hr|Hr]; rewrite Hr; [split; reflexivity|].
    destruct (stat fs path); split; reflexivity.
  - intro Hin. apply filter_In in Hin. destruct Hin as [_ Hin].
    rewrite is_same_file_self in Hin. unfold isfile in Hf.
    destruct (stat fs f); [discriminate Hin | discriminate Hf].
  - intros c Hc Hs. apply filter_In. split; [exact Hc|]. rewrite Hs. reflexivity.
Qed.

(** [C4_listing_of_file] on [/a/c.txt] and [/a] in [fs_abc]. *)
Lemma C4_witness :
  H.get_listing helper0 fs_abc "/a"
  = Ok [("/a", [("..", "/"); ("b/", "/a/b"); ("c.txt", "/a")])]
  /\ H.get_listing helper0 fs_abc "/a/c.txt"
     = Ok [("/a/c.txt", [("..", "/"); ("b/", "/a/b")])]
  /\ ~ In "/a/c.txt" (without_file fs_abc "/a/c.txt" (H.filtered_children helper0 fs_abc "/a")).
Proof.
  destruct (C4_listing_of_file helper0 fs_abc "/a/c.txt" "/a") as (H1 & _ & H3 & _).
  - reflexivity.
  - reflexivity.
  - reflexivity.
  - intros c Hc. vm_compute in Hc. destruct Hc as [<-|[<-|[]]]; reflexivity.
  - destruct (H1 _ _ eq_refl eq_refl) as [Ed Ef].
    split; [exact Ed|]. split; [exact Ef | exact H3].
Defined.

(** *** C6 *)

(** Every child left by the extension filter that is not the current file
    gets an entry, whether it can be probed or not. *)
Lemma listed_children_unprobed (self : H.t) (fs : FileSystem) (current_file : string) :
  listed_children self fs current_file
  = filter (fun c => negb (H.is_same_file fs c current_file))
           (H.filtered_children self fs current_file).
Proof.
  unfold listed_children. apply filter_ext_in. intros c _.
  unfold keeps. rewrite skip_file_never_skips. reflexivity.
Qed.

(** The part of C6 that holds: probing the children raises nothing;
    [get_listing] raises only when the comparison of the directory with its
    parent does. *)
Lemma get_listing_raises_at_root_only (self : H.t) (fs : FileSystem)
      (current_file : string) (e : exn) :
  H.get_listing self fs current_file = Raise e ->
  e = OSError
  /\ samefile fs (H.get_dir_from_path fs current_file)
       (H.parent_of fs (H.get_dir_from_path fs current_file))
     = RaisesOSError.
Proof.
  intro He. rewrite get_listing_entries in He. unfold parent_entries in He.
  destruct (samefile fs _ _); [discriminate|]. inversion He. tauto.
Qed.

(** C6 (the code at the failing input): [/a] holds [dangling], a link
    whose target is gone, so that [os.stat] raises on it.  [skip_file]
    answers [False] for it and the listing has an entry for it. *)
Theorem C6_broken_link_is_listed :
  glob fs_dangling (join "/a" "*") = ["/a/dangling"; "/a/c.txt"]
  /\ stat fs_dangling "/a/dangling" = RaisesOSError
  /\ H.skip_file fs_dangling "/a/dangling" = false
  /\ H.get_listing helper0 fs_dangling "/a"
     = Ok [("/a", [("..", "/"); ("dangling", "/a/dangling"); ("c.txt", "/a")])].
Proof. repeat split. Qed.

(** *** C10 *)

(** [/a/c.txt/] is not a file (a file has nothing under it), so the
    first application only normalises it, to the file [/a/c.txt]; the
    second application then moves to the file's directory. *)
Lemma C10_counterexample :
  H.get_dir_from_path fs_abc "/a/c.txt/" = "/a/c.txt"
  /\ H.get_dir_from_path fs_abc (H.get_dir_from_path fs_abc "/a/c.txt/") = "/a"
  /\ H.get_dir_from_path fs_abc (H.get_dir_from_path fs_abc "/a/c.txt/")
     <> H.get_dir_from_path fs_abc "/a/c.txt/".
Proof. repeat split. discriminate. Qed.

(** C10 (amended): [get_dir_from_path] applied twice is
    [get_dir_from_path] applied once, for every path whose resolved
    directory is not itself a regular file. *)
Theorem C10_get_dir_from_path_idempotent (fs : FileSystem) (p : string) :
  isfile fs (H.get_dir_from_path fs p) = false ->
  H.get_dir_from_path fs (H.get_dir_from_path fs p) = H.get_dir_from_path fs p.
Proof.
  intro Hq. unfold H.get_dir_from_path at 1. rewrite Hq.
  unfold H.get_dir_from_path. apply normpath_idempotent.
Qed.

(** [C10_get_dir_from_path_idempotent] on a file of [fs_abc]. *)
Lemma C10_witness :
  H.get_dir_from_path fs_abc (H.get_dir_from_path fs_abc "/a/c.txt")
  = H.get_dir_from_path fs_abc "/a/c.txt".
Proof.
  apply (C10_get_dir_from_path_idempotent fs_abc "/a/c.txt").
  reflexivity.
Defined.

(* ================================================================== *)
(** ** The session *)
(* ================================================================== *)

(** *** C5 *)

(** The two reads of [track_calling_view] need a view object: on a window
    whose [active_view()] is [None] they raise. *)
Lemma track_calling_view_without_view (self : H.t) (window : Window) :
  active_view window = None ->
  H.track_calling_view self window = Raise AttributeError.
Proof. intro E. unfold H.track_calling_view. rewrite E. reflexivity. Qed.

(** When the window does hand out a view and that view carries no file,
    [track_calling_view] returns [None] and [run] starts from the working
    directory. *)
Lemma run_without_file_name
      (window : Window) (fs : FileSystem) (st : State) (v : View) :
  active_view window = Some v ->
  file_name v = None ->
  exists h,
    H.track_calling_view (helper st) window = Ok (None, h)
    /\ H.calling_view h = Some v
    /\ H.calling_view_is_empty h = Some (List.length (views window) =? 0)%nat
    /\ Nav.run window fs st
       = Nav.navigate fs (with_stack (with_helper st h) []) (getcwd fs).
Proof.
  intros Hv Hf. unfold Nav.run, H.track_calling_view. rewrite Hv, Hf.
  eexists. split; [reflexivity|]. repeat split.
Qed.

(** C5 (the code at the failing input): on a window without an active
    view, [track_calling_view] raises [AttributeError] instead of returning
    [None], and [run] raises with it: the fall-back to the working
    directory is not reached. *)
Theorem C5_no_active_view_raises :
  active_view window_none = None
  /\ H.track_calling_view helper0 window_none = Raise AttributeError
  /\ Nav.run window_none fs_abc state0 = Raise AttributeError.
Proof. repeat split. Qed.

(** *** C9 *)

(** C9: with no preview path, or one that is not an existing file, the
    quick-open command returns without a call on the window and without a
    change of state. *)
Theorem C9_quick_open_without_file (window : Window) (fs : FileSystem) (st : State) :
  (H.get_preview_path (helper st) = None
   \/ exists p, H.get_preview_path (helper st) = Some p /\ isfile fs p = false) ->
  Quick.run window fs st = Ok st.
Proof.
  intros [E|(p & E & Hf)]; unfold Quick.run; rewrite E; [reflexivity|].
  rewrite Hf, orb_true_r. reflexivity.
Qed.

(** [C9_quick_open_without_file] before any preview, and with a directory
    as the preview. *)
Lemma C9_witness :
  Quick.run window_c fs_abc state0 = Ok state0
  /\ Quick.run window_c fs_abc (with_helper state0 (H.set_preview helper0 "/a/b"))
     = Ok (with_helper state0 (H.set_preview helper0 "/a/b")).
Proof.
  split.
  - apply C9_quick_open_without_file. left. reflexivity.
  - apply C9_quick_open_without_file. right. exists "/a/b". split; reflexivity.
Defined.

(** *** C8 *)

Lemma navigate_helper (fs : FileSystem) (st st' : State) (p : string) :
  Nav.navigate fs st p = Ok st' -> helper st' = helper st.
Proof.
  unfold Nav.navigate. destruct (H.get_listing _ _ _) as [d|]; simpl; [|discriminate].
  destruct (getitem _ _); simpl; [|discriminate].
  intro E. inversion E. reflexivity.
Qed.

Lemma show_preview_origin (window : Window) (fs : FileSystem)
      (st st' : State) (p : string) (i : Z) :
  Nav.show_preview fs st p i = Ok st' ->
  origin_kept window (helper st) -> origin_kept window (helper st').
Proof.
  unfold Nav.show_preview. destruct (0 <=? i)%Z.
  - destruct (getitem _ _); simpl; [|discriminate].
    destruct (list_getitem _ _); simpl; [|discriminate].
    destruct (isfile fs _); intro E; inversion E; subst; simpl; exact (fun H => H).
  - intro E. inversion E. subst. exact (fun H => H).
Qed.

Lemma last_snoc {A} (l : list A) (x d : A) : last (l ++ [x]) d = x.
Proof. apply last_last. Qed.

Lemma open_selected_file_descends (fs : FileSystem) (st st1 : State)
      (p s : string) (i : Z) :
  Nav.open_selected_file fs st p i = Ok st1 ->
  last (calls st1) (run_command "") = set_timeout_async_navigate s ->
  helper st1 = helper st.
Proof.
  unfold Nav.open_selected_file. destruct (i <? 0)%Z.
  - intro E. inversion E. subst. simpl. rewrite last_snoc.
    unfold H.show_calling_view. destruct (H.truthy _); discriminate.
  - destruct (getitem _ _); simpl; [|discriminate].
    destruct (list_getitem _ _); simpl; [|discriminate].
    destruct (isfile fs _); intro E; inversion E; subst; simpl.
    + rewrite last_snoc. discriminate.
    + reflexivity.
Qed.

(** While browsing, whatever the depth, the helper still holds the origin
    recorded when the session began. *)
Lemma browsing_origin (window : Window) (fs : FileSystem) (st0 : State)
      (cwd : string) (st : State) :
  browsing window fs st0 cwd st -> origin_kept window (helper st).
Proof.
  induction 1 as [r h st Ht Hr | cwd st i st' _ IH Hp | cwd st i st1 s st2 _ IH Ho Hl Hn].
  - unfold Nav.run in Hr. rewrite Ht in Hr. simpl in Hr.
    apply navigate_helper in Hr. rewrite Hr. simpl.
    unfold H.track_calling_view in Ht.
    destruct (active_view window) as [v|] eqn:Ev; [|discriminate].
    inversion Ht; subst. split; [simpl; symmetry; exact Ev | reflexivity].
  - eapply show_preview_origin; eassumption.
  - apply navigate_helper in Hn. rewrite Hn.
    rewrite (open_selected_file_descends _ _ _ _ _ _ Ho Hl). exact IH.
Qed.

(** C8: cancelling (a negative index) while browsing, at any depth, makes
    one call on the window -- [focus_view] on the view that was active when
    the session began, or [close_file] when the window had no view then --
    and resets the helper: no preview path, the [file_navigation_active]
    setting erased, no calling view. *)
Theorem C8_cancel_restores_origin
        (window : Window) (fs : FileSystem) (st0 : State)
        (cwd : string) (st : State) (i : Z) :
  browsing window fs st0 cwd st ->
  i < 0 ->
  exists st',
    Nav.open_selected_file fs st cwd i = Ok st'
    /\ calls st' = (calls st ++
                    [if (List.length (views window) =? 0)%nat
                     then run_command "close_file"
                     else focus_view (active_view window)])%list
    /\ helper st' = H.reset (helper st)
    /\ H.preview_file_path (helper st') = None
    /\ H.file_navigation_active (helper st') = false
    /\ H.calling_view (helper st') = None.
Proof.
  intros Hb Hi. destruct (browsing_origin _ _ _ _ _ Hb) as [Hv He].
  unfold Nav.open_selected_file.
  assert (E : (i <? 0)%Z = true) by (apply Z.ltb_lt; exact Hi). rewrite E.
  eexists. split; [reflexivity|]. simpl. repeat split.
  unfold H.show_calling_view. rewrite He, Hv.
  destruct (List.length (views window) =? 0)%nat; reflexivity.
Qed.

Example st_preview_d_calls :
  calls st_preview_d
  = [show_quick_panel [("..", "/"); ("b/", "/a/b")] "/a/c.txt" 0;
     focus_view (Some view_c);
     set_timeout_async_navigate "/a/b";
     show_quick_panel [("..", "/a"); ("d.py", "/a/b")] "/a/b" 0;
     open_file "/a/b/d.py" true].
Proof. reflexivity. Qed.

Lemma browsing_preview_d : browsing window_c fs_abc state0 "/a/b" st_preview_d.
Proof.
  apply (browsing_highlight _ _ _ "/a/b" st_panel_b 1); [|reflexivity].
  apply (browsing_descend _ _ _ "/a/c.txt" st_panel_a 1 st_commit_b);
    [|reflexivity|reflexivity|reflexivity].
  exact (browsing_start window_c fs_abc state0 (Some "/a/c.txt") _ st_panel_a
           eq_refl eq_refl).
Qed.

Lemma browsing_preview_c : browsing window_empty fs_abc state0 "/a" st_preview_c.
Proof.
  apply (browsing_highlight _ _ _ "/a" st_panel_cwd 2); [|reflexivity].
  exact (browsing_start window_empty fs_abc state0 None _ st_panel_cwd
           eq_refl eq_refl).
Qed.

(** [C8_cancel_restores_origin] one level down from the tab of
    [/a/c.txt], and in the window without tabs. *)
Lemma C8_witness :
  (exists st',
      Nav.open_selected_file fs_abc st_preview_d "/a/b" (-1) = Ok st'
      /\ calls st' = (calls st_preview_d ++ [focus_view (Some view_c)])%list
      /\ H.preview_file_path (helper st') = None
      /\ H.file_navigation_active (helper st') = false)
  /\ (exists st',
      Nav.open_selected_file fs_abc st_preview_c "/a" (-1) = Ok st'
      /\ calls st' = (calls st_preview_c ++ [run_command "close_file"])%list
      /\ H.preview_file_path (helper st') = None
      /\ H.file_navigation_active (helper st') = false).
Proof.
  split.
  - destruct (C8_cancel_restores_origin window_c fs_abc state0 "/a/b" st_preview_d (-1)
                browsing_preview_d eq_refl) as (st' & H1 & H2 & _ & H4 & H5 & _).
    exists st'. repeat split; assumption.
  - destruct (C8_cancel_restores_origin window_empty fs_abc state0 "/a" st_preview_c (-1)
                browsing_preview_c eq_refl) as (st' & H1 & H2 & _ & H4 & H5 & _).
    exists st'. repeat split; assumption.
Defined.

(** *** C7 *)

(** Committing on [d.py] while it is previewed: the only call is
    [open_file], and no call of the whole session positions a tab, although
    the insertion slot is [(0, 0)]. *)
Lemma C7_counterexample :
  Nav.get_path ("d.py", "/a/b") = "/a/b/d.py"
  /\ isfile fs_abc "/a/b/d.py" = true
  /\ H.get_current_view_index (helper st_preview_d) = Ok (0, 0)
  /\ exists st',
      Nav.open_selected_file fs_abc st_preview_d "/a/b" 1 = Ok st'
      /\ calls st' = (calls st_preview_d ++ [open_file "/a/b/d.py" false])%list
      /\ forall v g i, ~ In (set_view_index v g i) (calls st').
Proof.
  repeat split. eexists. split; [reflexivity|]. split; [reflexivity|].
  intros v g i Hin. simpl in Hin.
  repeat (destruct Hin as [Hin|Hin]; [discriminate Hin|]). exact Hin.
Qed.

(** C7 (amended): a commit in the panel on an entry that resolves to a
    file makes one call, [open_file] without the transient flag, positions
    nothing, and resets the helper.  Positioning belongs to the quick-open
    command: when the previewed file is not open, or is the transient view
    of the active group, it calls [open_file] and moves the view that call
    returns to [(group, index + 1)], [(group, index)] being
    [get_current_view_index()]; when the file is open in another view it
    does nothing. *)
Theorem C7_commit_opens_quick_open_positions :
  (forall fs st path i items e,
      0 <= i ->
      getitem (stack st) path = Ok items ->
      list_getitem items i = Ok e ->
      isfile fs (Nav.get_path e) = true ->
      Nav.open_selected_file fs st path i
      = Ok {| helper := H.reset (helper st);
              stack := stack st;
              calls := (calls st ++ [open_file (Nav.get_path e) false])%list |})
  /\ (forall window fs st fp g index,
         H.get_preview_path (helper st) = Some fp ->
         fp <> "" -> isfile fs fp = true ->
         (find_open_file window fp = None
          \/ view_eq (find_open_file window fp)
                     (transient_view_in_group window (active_group window)) = true) ->
         H.get_current_view_index (helper st) = Ok (g, index) ->
         Quick.run window fs st
         = Ok {| helper := helper st;
                 stack := stack st;
                 calls := (calls st ++
                           [open_file fp false;
                            set_view_index (open_file_view window fp) g (index + 1)])%list |})
  /\ (forall window fs st fp v,
         H.get_preview_path (helper st) = Some fp ->
         find_open_file window fp = Some v ->
         view_eq (Some v) (transient_view_in_group window (active_group window)) = false ->
         Quick.run window fs st = Ok st).
Proof.
  split; [|split].
  - intros fs st path i items e Hi Hg Hl Hf. unfold Nav.open_selected_file.
    assert (E : (i <? 0)%Z = false) by (apply Z.ltb_ge; exact Hi).
    rewrite E, Hg. simpl. rewrite Hl. simpl. rewrite Hf. reflexivity.
  - intros window fs st fp g index Hp Hne Hf Hv Hi. unfold Quick.run.
    rewrite Hp, Hf. apply eqb_false_iff in Hne. rewrite Hne. simpl.
    assert (E : view_eq (find_open_file window fp)
                  (transient_view_in_group window (active_group window))
                || Quick.is_none (find_open_file window fp) = true).
    { destruct Hv as [Hv|Hv]; rewrite Hv; [apply orb_true_r | reflexivity]. }
    rewrite E, Hi. simpl. unfold call. simpl. rewrite <- app_assoc. reflexivity.
  - intros window fs st fp v Hp Hv Hne. unfold Quick.run. rewrite Hp.
    destruct ((fp =? "") || negb (isfile fs fp)); [reflexivity|].
    rewrite Hv, Hne. reflexivity.
Qed.

(** [C7_commit_opens_quick_open_positions] on the session that previews
    [d.py]. *)
Lemma C7_witness :
  Nav.open_selected_file fs_abc st_preview_d "/a/b" 1
  = Ok {| helper := H.reset (helper st_preview_d);
          stack := stack st_preview_d;
          calls := (calls st_preview_d ++ [open_file "/a/b/d.py" false])%list |}
  /\ Quick.run window_preview fs_abc st_preview_d
     = Ok {| helper := helper st_preview_d;
             stack := stack st_preview_d;
             calls := (calls st_preview_d ++
                       [open_file "/a/b/d.py" false; set_view_index view_d 0 1])%list |}
  /\ Quick.run window_c fs_abc st_preview_c = Ok st_preview_c.
Proof.
  destruct C7_commit_opens_quick_open_positions as (H1 & H2 & H3).
  split; [|split].
  - apply (H1 fs_abc st_preview_d "/a/b" 1 [("..", "/a"); ("d.py", "/a/b")] ("d.py", "/a/b"));
      [lia | reflexivity | reflexivity | reflexivity].
  - apply (H2 window_preview fs_abc st_preview_d "/a/b/d.py" 0 0);
      [reflexivity | discriminate | reflexivity | right; reflexivity | reflexivity].
  - apply (H3 window_c fs_abc st_preview_c "/a/c.txt" view_c);
      [reflexivity | reflexivity | reflexivity].
Defined.

(* ================================================================== *)
(** ** More on the lister *)
(* ================================================================== *)

(** *** The extension filter *)

Lemma nth_error_middle {A} (pre : list A) (x : A) (suf : list A) :
  nth_error (pre ++ x :: suf) (List.length pre) = Some x.
Proof. induction pre; simpl; [reflexivity | assumption]. Qed.

Lemma remove_first_middle (pre : list string) (x : string) (suf : list string) :
  ~ In x pre -> remove_first x (pre ++ x :: suf) = (pre ++ suf)%list.
Proof.
  induction pre as [|y pre IH]; intro Hn; simpl.
  - rewrite String.eqb_refl. reflexivity.
  - destruct (String.eqb_spec y x) as [->|_].
    + exfalso. apply Hn. left. reflexivity.
    + f_equal. apply IH. intro Hin. apply Hn. right. exact Hin.
Qed.

Lemma NoDup_app_head (pre : list string) (x : string) (suf : list string) :
  NoDup (pre ++ x :: suf) -> ~ In x pre /\ NoDup (pre ++ suf).
Proof.
  intro H. split.
  - intro Hin. apply NoDup_remove_2 in H. apply H. apply in_or_app. left. exact Hin.
  - apply NoDup_remove_1 in H. exact H.
Qed.

Lemma exclude_loop_past_end (self : H.t) (fuel : nat) (l : list string) (i : nat) :
  (List.length l <= i)%nat -> H.exclude_loop self fuel l i = l.
Proof.
  intro Hlen. destruct fuel; simpl; [reflexivity|].
  assert (E : nth_error l i = None) by (apply nth_error_None; exact Hlen).
  rewrite E. reflexivity.
Qed.

Lemma exclude_loop_suffix (self : H.t) (fuel : nat) :
  forall pre suf : list string,
    NoDup (pre ++ suf) ->
    (List.length suf <= fuel)%nat ->
    H.exclude_loop self fuel (pre ++ suf) (List.length pre)
    = (pre ++ skip_after_removal (H.is_excluded self) suf)%list.
Proof.
  induction fuel as [fuel IH] using lt_wf_ind. intros pre suf Hnd Hfuel.
  destruct suf as [|x rest].
  - simpl. apply exclude_loop_past_end. rewrite app_nil_r. lia.
  - destruct fuel as [|fuel']; [simpl in Hfuel; lia|].
    rewrite exclude_loop_step, nth_error_middle.
    cbn [skip_after_removal]. simpl in Hfuel.
    destruct (H.is_excluded self x).
    + destruct (NoDup_app_head pre x rest Hnd) as [Hx Hnd'].
      rewrite remove_first_middle by exact Hx.
      destruct rest as [|y rest'].
      * apply exclude_loop_past_end. rewrite app_nil_r. lia.
      * replace (pre ++ y :: rest')%list with ((pre ++ [y]) ++ rest')%list
          by (rewrite <- app_assoc; reflexivity).
        replace (S (List.length pre)) with (List.length (pre ++ [y]))
          by (rewrite length_app; simpl; lia).
        rewrite IH.
        -- rewrite <- app_assoc. reflexivity.
        -- lia.
        -- rewrite <- app_assoc. exact Hnd'.
        -- simpl in Hfuel. lia.
    + replace (pre ++ x :: rest)%list with ((pre ++ [x]) ++ rest)%list
        by (rewrite <- app_assoc; reflexivity).
      replace (S (List.length pre)) with (List.length (pre ++ [x]))
        by (rewrite length_app; simpl; lia).
      rewrite IH.
      * rewrite <- app_assoc. reflexivity.
      * lia.
      * rewrite <- app_assoc. exact Hnd.
      * lia.
Qed.

(** X1: on a directory listing without duplicates, the loop that removes
    from the list it iterates over computes [skip_after_removal]: each
    excluded child that the iterator reaches is removed, and the child that
    follows a removed one is kept without its extension being looked at. *)
Theorem filter_excluded_skips_after_removal (self : H.t) (dir_listing : list string) :
  NoDup dir_listing ->
  H.filter_excluded self dir_listing
  = skip_after_removal (H.is_excluded self) dir_listing.
Proof.
  intro Hnd. unfold H.filter_excluded.
  apply (exclude_loop_suffix self (List.length dir_listing) [] dir_listing Hnd).
  lia.
Qed.

Lemma filter_excluded_skips_after_removal_witness :
  NoDup ["/a/x.png"; "/a/y.png"; "/a/z.gif"; "/a/w.txt"]
  /\ H.filter_excluded helper0 ["/a/x.png"; "/a/y.png"; "/a/z.gif"; "/a/w.txt"]
     = ["/a/y.png"; "/a/w.txt"].
Proof.
  assert (Hnd : NoDup ["/a/x.png"; "/a/y.png"; "/a/z.gif"; "/a/w.txt"]).
  { repeat constructor; simpl; intuition discriminate. }
  split; [exact Hnd|].
  rewrite (filter_excluded_skips_after_removal helper0 _ Hnd). reflexivity.
Defined.

Lemma remove_first_keeps (x c : string) (l : list string) :
  c <> x -> In c l -> In c (remove_first x l).
Proof.
  intros Hne. induction l as [|y l IH]; simpl; [tauto|].
  intros [->|Hin].
  - apply eqb_false_iff in Hne. rewrite Hne. left. reflexivity.
  - destruct (y =? x); [exact Hin | right; apply IH, Hin].
Qed.

Lemma exclude_loop_keeps (self : H.t) (c : string) (fuel : nat) :
  forall (l : list string) (i : nat),
    H.is_excluded self c = false -> In c l -> In c (H.exclude_loop self fuel l i).
Proof.
  induction fuel as [|fuel IH]; intros l i Hc Hin; simpl; [exact Hin|].
  destruct (nth_error l i) as [x|]; [|exact Hin].
  destruct (H.is_excluded self x) eqn:Ex; [|apply IH; assumption].
  apply IH; [assumption|]. apply remove_first_keeps; [|exact Hin].
  intros ->. congruence.
Qed.

(** X2: the extension filter only ever drops excluded children: a child
    of the directory listing whose extension is not excluded is in the
    filtered listing, and whatever is in the filtered listing was in the
    directory listing. *)
Theorem filter_excluded_keeps_the_others
        (self : H.t) (dir_listing : list string) (c : string) :
  In c dir_listing ->
  H.is_excluded self c = false ->
  In c (H.filter_excluded self dir_listing)
  /\ incl (H.filter_excluded self dir_listing) dir_listing.
Proof.
  intros Hin Hc. split.
  - apply exclude_loop_keeps; assumption.
  - apply exclude_loop_incl.
Qed.

Lemma filter_excluded_keeps_the_others_witness :
  In "/a/z.txt" (H.filter_excluded helper0 ["/a/x.png"; "/a/y.png"; "/a/z.txt"]).
Proof.
  apply (filter_excluded_keeps_the_others helper0
           ["/a/x.png"; "/a/y.png"; "/a/z.txt"] "/a/z.txt").
  - simpl. tauto.
  - reflexivity.
Defined.

(** *** Order and origin of the entries *)

Lemma subseq_refl {A} (l : list A) : subseq l l.
Proof. induction l; constructor; assumption. Qed.

Lemma subseq_trans {A} (l1 l2 l3 : list A) :
  subseq l1 l2 -> subseq l2 l3 -> subseq l1 l3.
Proof.
  intros H12 H23. revert l1 H12.
  induction H23 as [|x l2 l3 _ IH|x l2 l3 _ IH]; intros l1 H12.
  - exact H12.
  - apply subseq_skip, IH, H12.
  - inversion H12; subst.
    + apply subseq_skip, IH. assumption.
    + apply subseq_keep, IH. assumption.
Qed.

Lemma subseq_filter {A} (f : A -> bool) (l : list A) : subseq (filter f l) l.
Proof.
  induction l as [|a l IH]; simpl; [constructor|].
  destruct (f a); constructor; exact IH.
Qed.

Lemma subseq_map {A B} (f : A -> B) (l1 l2 : list A) :
  subseq l1 l2 -> subseq (map f l1) (map f l2).
Proof. induction 1; simpl; constructor; assumption. Qed.

Lemma subseq_remove_first (x : string) (l : list string) :
  subseq (remove_first x l) l.
Proof.
  induction l as [|y l IH]; simpl; [constructor|].
  destruct (y =? x).
  - apply subseq_skip, subseq_refl.
  - apply subseq_keep, IH.
Qed.

Lemma subseq_exclude_loop (self : H.t) (fuel : nat) :
  forall (l : list string) (i : nat), subseq (H.exclude_loop self fuel l i) l.
Proof.
  induction fuel as [|fuel IH]; intros l i; simpl; [apply subseq_refl|].
  destruct (nth_error l i) as [x|]; [|apply subseq_refl].
  destruct (H.is_excluded self x); [|apply IH].
  eapply subseq_trans; [apply IH | apply subseq_remove_first].
Qed.

Lemma listed_children_subseq (self : H.t) (fs : FileSystem) (current_file : string) :
  subseq (listed_children self fs current_file)
         (glob fs (join (H.get_dir_from_path fs current_file) "*")).
Proof.
  unfold listed_children, H.filtered_children, H.filter_excluded.
  eapply subseq_trans; [apply subseq_filter | apply subseq_exclude_loop].
Qed.

(** X3: the listing keeps the enumeration order of the directory: after
    the parent entry, if there is one, its entries are the entries of some
    of the globbed children, in the order in which [glob] gave them, none
    repeated more often than [glob] did. *)
Theorem listing_in_glob_order
        (self : H.t) (fs : FileSystem) (current_file : string) (L : list entry) :
  H.get_listing self fs current_file = Ok [(current_file, L)] ->
  exists head,
    (head = [] \/ head = [(pardir, H.parent_of fs (H.get_dir_from_path fs current_file))])
    /\ exists rest,
        L = (head ++ rest)%list
        /\ subseq rest
             (map (H.child_entry fs)
                  (glob fs (join (H.get_dir_from_path fs current_file) "*"))).
Proof.
  intro HL. rewrite get_listing_entries in HL. unfold parent_entries in HL.
  destruct (samefile fs _ _) as [same|]; [|discriminate].
  inversion HL; subst L.
  exists (if negb same
          then [(pardir, H.parent_of fs (H.get_dir_from_path fs current_file))]
          else []).
  split.
  - destruct same; simpl; [left | right]; reflexivity.
  - eexists. split; [reflexivity|].
    apply subseq_map, listed_children_subseq.
Qed.

Lemma listing_in_glob_order_witness :
  exists head rest,
    [("..", "/"); ("b/", "/a/b")] = (head ++ rest)%list
    /\ subseq rest (map (H.child_entry fs_abc) ["/a/b"; "/a/c.txt"]).
Proof.
  destruct (listing_in_glob_order helper0 fs_abc "/a/c.txt"
              [("..", "/"); ("b/", "/a/b")] eq_refl)
    as (head & _ & rest & E & Hs).
  exists head, rest. split; [exact E | exact Hs].
Defined.

(** *** is_same_file *)

Lemma samestat_sym (s1 s2 : stat_result) : samestat s1 s2 = samestat s2 s1.
Proof. unfold samestat. rewrite (Nat.eqb_sym (st_ino s1)), (Nat.eqb_sym (st_dev s1)). reflexivity. Qed.

Lemma samestat_refl (s : stat_result) : samestat s s = true.
Proof. unfold samestat. rewrite !Nat.eqb_refl. reflexivity. Qed.

Lemma is_same_file_refl (fs : FileSystem) (a : string) :
  H.is_same_file fs a a = is_returned (stat fs a).
Proof.
  unfold H.is_same_file, samefile. destruct (stat fs a) as [sa|]; [|reflexivity].
  rewrite samestat_refl. reflexivity.
Qed.

(** X4: [is_same_file] never raises and is [False] as soon as one of the
    two paths cannot be examined; it does not depend on the order of its
    arguments; a path is the same file as itself exactly when it can be
    examined; and two paths compared equal to a third that can be examined
    are equal to each other. *)
Theorem is_same_file_identity (fs : FileSystem) :
  (forall a b, stat fs a = RaisesOSError \/ stat fs b = RaisesOSError ->
               H.is_same_file fs a b = false)
  /\ (forall a b, H.is_same_file fs a b = H.is_same_file fs b a)
  /\ (forall a, H.is_same_file fs a a = is_returned (stat fs a))
  /\ (forall a b c, H.is_same_file fs a b = true -> H.is_same_file fs b c = true ->
                    H.is_same_file fs a c = true).
Proof.
  unfold H.is_same_file, samefile. repeat split.
  - intros a b [E|E]; rewrite E; [reflexivity|]. destruct (stat fs a); reflexivity.
  - intros a b. destruct (stat fs a) as [sa|], (stat fs b) as [sb|]; try reflexivity.
    rewrite samestat_sym. reflexivity.
  - intros a. destruct (stat fs a) as [sa|]; [|reflexivity].
    rewrite samestat_refl. reflexivity.
  - intros a b c. destruct (stat fs a) as [sa|], (stat fs b) as [sb|],
      (stat fs c) as [sc|]; try discriminate.
    unfold samestat.
    destruct (Nat.eqb_spec (st_ino sa) (st_ino sb)), (Nat.eqb_spec (st_dev sa) (st_dev sb));
      try discriminate.
    destruct (Nat.eqb_spec (st_ino sb) (st_ino sc)), (Nat.eqb_spec (st_dev sb) (st_dev sc));
      try discriminate.
    intros _ _.
    replace (st_ino sa) with (st_ino sc) by congruence.
    replace (st_dev sa) with (st_dev sc) by congruence.
    rewrite !Nat.eqb_refl. reflexivity.
Qed.

Lemma is_same_file_identity_witness :
  H.is_same_file fs_loop "/a/loop" "/nowhere" = false
  /\ H.is_same_file fs_loop "/a/loop" "/a" = H.is_same_file fs_loop "/a" "/a/loop"
  /\ H.is_same_file fs_loop "/a/loop" "/a/loop" = true.
Proof.
  destruct (is_same_file_identity fs_loop) as (H1 & H2 & H3 & _).
  split; [apply H1; right; reflexivity|].
  split; [apply H2 | apply H3].
Defined.

(** *** The current file is never listed *)

(** X5: no entry is built for a child that is the same file as the path
    given to [get_listing]: a listing is its parent entry, if any, followed
    by the entries of exactly those children left by the extension filter
    that are not the same file as that path.  A path that can be examined
    is never among them, under whatever name the directory holds it. *)
Theorem current_file_is_not_listed
        (self : H.t) (fs : FileSystem) (current_file : string) (L : list entry) :
  H.get_listing self fs current_file = Ok [(current_file, L)] ->
  exists head,
    (head = [] \/ head = [(pardir, H.parent_of fs (H.get_dir_from_path fs current_file))])
    /\ L = (head ++ map (H.child_entry fs)
                       (without_file fs current_file
                          (H.filtered_children self fs current_file)))%list
    /\ (is_returned (stat fs current_file) = true ->
        ~ In current_file
             (without_file fs current_file (H.filtered_children self fs current_file))).
Proof.
  intro HL. unfold H.get_listing in HL.
  destruct (samefile fs _ _) as [same|]; [|discriminate].
  rewrite add_children_filter in HL. inversion HL; subst L.
  exists (if negb same
          then [(pardir, H.parent_of fs (H.get_dir_from_path fs current_file))]
          else []).
  split; [destruct same; simpl; [left | right]; reflexivity|]. split.
  - do 2 f_equal. unfold without_file. apply filter_ext_in. intros c _.
    unfold keeps. rewrite skip_file_never_skips. reflexivity.
  - intros Hst Hin. apply filter_In in Hin. destruct Hin as [_ Hin].
    rewrite is_same_file_refl, Hst in Hin. discriminate.
Qed.

Lemma current_file_is_not_listed_witness :
  exists head,
    [("..", "/"); ("b/", "/a/b")]
    = (head ++ map (H.child_entry fs_abc)
                   (without_file fs_abc "/a/c.txt"
                      (H.filtered_children helper0 fs_abc "/a/c.txt")))%list
    /\ ~ In "/a/c.txt"
           (without_file fs_abc "/a/c.txt" (H.filtered_children helper0 fs_abc "/a/c.txt")).
Proof.
  destruct (current_file_is_not_listed helper0 fs_abc "/a/c.txt"
              [("..", "/"); ("b/", "/a/b")] eq_refl) as (head & _ & H2 & H3).
  exists head. split; [exact H2 | exact (H3 eq_refl)].
Defined.

(** *** When the listing fails *)

(** X6: [get_listing] compares the resolved directory with its parent
    without a handler: it raises [OSError] exactly when one of the two
    cannot be examined -- in particular for a path that does not exist --
    and returns a one-key dictionary otherwise; [navigate] then raises with
    it, before any panel is shown. *)
Theorem get_listing_fails_on_unreadable_directory
        (self : H.t) (fs : FileSystem) (current_file : string) :
  let path := H.get_dir_from_path fs current_file in
  let parent := H.parent_of fs path in
  (stat fs path = RaisesOSError \/ stat fs parent = RaisesOSError ->
   H.get_listing self fs current_file = Raise OSError
   /\ forall st, helper st = self ->
                 Nav.navigate fs st current_file = Raise OSError)
  /\ (is_returned (stat fs path) = true -> is_returned (stat fs parent) = true ->
      exists L, H.get_listing self fs current_file = Ok [(current_file, L)]).
Proof.
  intros path parent. split.
  - intro Hst.
    assert (E : H.get_listing self fs current_file = Raise OSError).
    { unfold H.get_listing, samefile. fold path. fold parent.
      destruct Hst as [Hst|Hst]; rewrite Hst; [reflexivity|].
      destruct (stat fs path); reflexivity. }
    split; [exact E|]. intros st <-. unfold Nav.navigate. rewrite E. reflexivity.
  - intros H1 H2. unfold H.get_listing, samefile. fold path. fold parent.
    destruct (stat fs path); [|discriminate]. destruct (stat fs parent); [|discriminate].
    eexists. reflexivity.
Qed.

Lemma get_listing_fails_on_unreadable_directory_witness :
  H.get_listing helper0 fs_abc "/a/gone" = Raise OSError
  /\ Nav.navigate fs_abc state0 "/a/gone" = Raise OSError
  /\ exists L, H.get_listing helper0 fs_abc "/a/b" = Ok [("/a/b", L)].
Proof.
  destruct (get_listing_fails_on_unreadable_directory helper0 fs_abc "/a/gone")
    as [H1 _].
  destruct (H1 (or_introl eq_refl)) as [E1 E2].
  split; [exact E1|]. split; [exact (E2 state0 eq_refl)|].
  destruct (get_listing_fails_on_unreadable_directory helper0 fs_abc "/a/b")
    as [_ H2].
  exact (H2 eq_refl eq_refl).
Defined.

(** *** The targets are normalised *)

(** X7: the target of every entry of a listing is a normalised path:
    [normpath] leaves it as it is. *)
Theorem listing_targets_are_normalised
        (self : H.t) (fs : FileSystem) (current_file : string)
        (L : list entry) (e : entry) :
  H.get_listing self fs current_file = Ok [(current_file, L)] ->
  In e L ->
  normpath (snd e) = snd e.
Proof.
  intros HL He. rewrite get_listing_entries in HL. unfold parent_entries in HL.
  destruct (samefile fs _ _) as [same|]; [|discriminate].
  inversion HL; subst L. apply in_app_or in He. destruct He as [He|He].
  - destruct same; simpl in He; [contradiction|].
    destruct He as [<-|[]]. simpl. unfold H.parent_of, abspath.
    apply normpath_idempotent.
  - apply in_map_iff in He. destruct He as (c & <- & _).
    unfold H.child_entry, H.get_dir_from_path. simpl. apply normpath_idempotent.
Qed.

Lemma listing_targets_are_normalised_witness : normpath "/a/b" = "/a/b".
Proof.
  apply (listing_targets_are_normalised helper0 fs_abc "/a/c.txt"
           [("..", "/"); ("b/", "/a/b")] ("b/", "/a/b")).
  - reflexivity.
  - simpl. tauto.
Defined.

(** *** Labels and [get_path] *)

Lemma rfind_from_tail (c : ascii) (s : string) :
  forall i last : Z,
    last < i ->
    (rfind_from c s i last = last /\ contains c s = false)
    \/ (i <= rfind_from c s i last
        /\ contains c (drop (Z.to_nat (rfind_from c s i last - i + 1)) s) = false).
Proof.
  induction s as [|a s IH]; intros i last Hlt.
  - left. split; reflexivity.
  - cbn [rfind_from]. destruct (a =? c)%char eqn:E.
    + right. destruct (IH (i + 1) i ltac:(lia)) as [[Hr Hc]|[Hr Hc]].
      * rewrite Hr. split; [lia|].
        replace (Z.to_nat (i - i + 1)) with 1%nat by lia. exact Hc.
      * split; [lia|].
        replace (Z.to_nat (rfind_from c s (i + 1) i - i + 1))
          with (S (Z.to_nat (rfind_from c s (i + 1) i - (i + 1) + 1))) by lia.
        exact Hc.
    + destruct (IH (i + 1) last ltac:(lia)) as [[Hr Hc]|[Hr Hc]].
      * left. split; [exact Hr|]. simpl. rewrite E, Hc. reflexivity.
      * right. split; [lia|].
        replace (Z.to_nat (rfind_from c s (i + 1) last - i + 1))
          with (S (Z.to_nat (rfind_from c s (i + 1) last - (i + 1) + 1))) by lia.
        exact Hc.
Qed.

Lemma basename_sepfree (p : string) : sepfree (basename p).
Proof.
  unfold sepfree, basename, slice_from, rfind.
  destruct (rfind_from_tail "/" p 0 (-1) ltac:(lia)) as [[Hr Hc]|[Hr Hc]].
  - rewrite Hr. exact Hc.
  - replace (rfind_from "/" p 0 (-1) - 0 + 1) with (rfind_from "/" p 0 (-1) + 1) in Hc by lia.
    exact Hc.
Qed.

(** X8: the label of a child's entry ends with a slash exactly when the
    child is a directory, so that [get_path] returns the entry's target for
    a directory child and joins target and label for any other child (the
    label of a child is never [..] when its name is not). *)
Theorem get_path_follows_the_label (fs : FileSystem) (c : string) :
  basename c <> pardir ->
  endswith_sep (fst (H.child_entry fs c)) = isdir fs c
  /\ Nav.get_path (H.child_entry fs c)
     = if isdir fs c then normpath c
       else join (H.get_dir_from_path fs c) (basename c).
Proof.
  intro Hb. pose proof (basename_sepfree c) as Hs.
  unfold H.child_entry, Nav.get_path. simpl.
  destruct (isdir fs c) eqn:Hd.
  - rewrite endswith_sep_app by discriminate. simpl. split; [reflexivity|].
    rewrite orb_true_r. unfold H.get_dir_from_path.
    rewrite (isdir_not_isfile fs c Hd). reflexivity.
  - rewrite (sepfree_endswith _ Hs). split; [reflexivity|].
    apply eqb_false_iff in Hb. rewrite Hb. reflexivity.
Qed.

Lemma get_path_follows_the_label_witness :
  Nav.get_path (H.child_entry fs_abc "/a/b") = "/a/b"
  /\ Nav.get_path (H.child_entry fs_abc "/a/c.txt") = "/a/c.txt"
  /\ Nav.get_path (H.child_entry fs_dangling "/a/dangling") = "/a/dangling/dangling".
Proof.
  split; [|split].
  - destruct (get_path_follows_the_label fs_abc "/a/b") as [_ E];
      [discriminate | exact E].
  - destruct (get_path_follows_the_label fs_abc "/a/c.txt") as [_ E];
      [discriminate | exact E].
  - destruct (get_path_follows_the_label fs_dangling "/a/dangling") as [_ E];
      [discriminate | exact E].
Defined.

(** *** Directory children *)

Lemma shape_snoc_plain (k : nat) (R : list string) (n : string) :
  shape k R -> plain n -> shape k (R ++ [n]).
Proof.
  intros (j & R' & -> & Hj & HF) Hn.
  exists j, (R' ++ [n])%list. split; [rewrite app_assoc; reflexivity|].
  split; [exact Hj|]. apply Forall_app. split; [exact HF|].
  constructor; [exact Hn | constructor].
Qed.

Lemma endswith_sep_slashes (k : nat) : k <> 0%nat -> endswith_sep (slashes k) = true.
Proof.
  induction k as [|k IH]; [contradiction|]. intros _.
  destruct k; [reflexivity|]. simpl slashes. rewrite endswith_sep_cons by discriminate.
  apply IH. discriminate.
Qed.

(** Joining a plain name to a normalised directory other than [.] gives a
    normalised path. *)
Lemma normpath_join_plain (d n : string) :
  normpath d = d -> d <> "." -> plain n -> sepfree n ->
  normpath (join d n) = join d n.
Proof.
  intros Hd Hdot Hn Hs.
  assert (Hone : forall k, (1 <= k <= 2)%nat ->
                           normpath (slashes k ++ n) = slashes k ++ n).
  { intros k Hk. change n with (join_sep [n]).
    apply normpath_rebuilt.
    - lia.
    - exists 0%nat, [n]. split; [reflexivity|]. split; [reflexivity|].
      constructor; [exact Hn | constructor].
    - constructor; [exact Hs | constructor].
    - destruct k; [lia | discriminate]. }
  destruct (normpath_fixed_tail d Hd) as [->|[->|[Hne He]]].
  - unfold join. rewrite (sepfree_startswith n Hs). simpl. apply (Hone 1%nat). lia.
  - unfold join. rewrite (sepfree_startswith n Hs). simpl. apply (Hone 2%nat). lia.
  - rewrite join_plain by assumption.
    pose proof (norm_comps_shape d) as Hsh.
    pose proof (norm_comps_sepfree d) as HS.
    pose proof (initial_slashes_cases d) as Hk.
    assert (Hq : d = slashes (initial_slashes d) ++ join_sep (norm_comps d)).
    { rewrite normpath_unfold in Hd by assumption.
      destruct (slashes (initial_slashes d) ++ join_sep (norm_comps d) =? "");
        [congruence | symmetry; exact Hd]. }
    set (k := initial_slashes d) in *. set (R := norm_comps d) in *.
    assert (HR : R <> []).
    { intro E. rewrite E in Hq. simpl in Hq. rewrite append_nil_r in Hq.
      destruct (Nat.eq_dec k 0) as [Hk0|Hk0].
      - rewrite Hk0 in Hq. simpl in Hq. contradiction.
      - rewrite Hq, (endswith_sep_slashes k Hk0) in He. discriminate. }
    assert (E : d ++ String "/" n = slashes k ++ join_sep (R ++ [n])).
    { rewrite join_sep_snoc, <- append_assoc, <- Hq by exact HR. reflexivity. }
    rewrite E. apply normpath_rebuilt.
    + lia.
    + apply shape_snoc_plain; assumption.
    + apply Forall_app. split; [exact HS | constructor; [exact Hs | constructor]].
    + rewrite <- E. destruct d; [contradiction | discriminate].
Qed.

(** X9: a commit on the entry of a directory child navigates into that
    child: for a directory [c] that is [join d n], [d] a normalised
    directory other than [.] and [n] a name other than [.] and [..], the
    entry built for [c] is [(n ++ "/", c)] and [get_path] gives [c]. *)
Theorem directory_entry_leads_to_the_child (fs : FileSystem) (d n : string) :
  normpath d = d -> d <> "." -> plain n -> sepfree n ->
  isdir fs (join d n) = true ->
  H.child_entry fs (join d n) = (n ++ "/", join d n)
  /\ Nav.get_path (H.child_entry fs (join d n)) = join d n.
Proof.
  intros Hd Hdot Hn Hs Hdir.
  destruct (dirname_basename_join d n Hd Hs) as [_ Hb].
  assert (He : H.child_entry fs (join d n) = (n ++ "/", join d n)).
  { rewrite (child_entry_dir fs _ Hdir), Hb, normpath_join_plain by assumption.
    reflexivity. }
  split; [exact He|]. rewrite He. unfold Nav.get_path. simpl.
  rewrite endswith_sep_app by discriminate. simpl. rewrite orb_true_r. reflexivity.
Qed.

Lemma directory_entry_leads_to_the_child_witness :
  H.child_entry fs_abc "/a/b" = ("b/", "/a/b")
  /\ Nav.get_path (H.child_entry fs_abc "/a/b") = "/a/b".
Proof.
  apply (directory_entry_leads_to_the_child fs_abc "/a" "b").
  - reflexivity.
  - discriminate.
  - repeat split; discriminate.
  - reflexivity.
  - reflexivity.
Defined.

(** *** Down into a child and back *)

Lemma plain_not_all_sep (n : string) : plain n -> sepfree n -> all_sep n = false.
Proof.
  intros (Hne & _ & _) Hs. destruct n as [|a r]; [contradiction|].
  unfold sepfree in Hs. simpl in *. apply orb_false_iff in Hs.
  destruct Hs as [Ha _]. rewrite Ha. reflexivity.
Qed.

Lemma join_abs_not_root (d n : string) :
  normpath d = d -> isabs d = true -> plain n -> sepfree n ->
  isabs (join d n) = true /\ all_sep (join d n) = false.
Proof.
  intros Hd Habs Hn Hs. pose proof (plain_not_all_sep n Hn Hs) as Hall.
  assert (Hne : d <> "") by (intros ->; discriminate).
  unfold join. rewrite (sepfree_startswith n Hs).
  apply eqb_false_iff in Hne. rewrite Hne. simpl.
  apply eqb_false_iff in Hne.
  destruct (endswith_sep d); unfold isabs in *.
  - rewrite startswith_sep_append by exact Hne. split; [exact Habs|].
    rewrite all_sep_app, Hall. apply andb_false_r.
  - rewrite startswith_sep_append by exact Hne. split; [exact Habs|].
    rewrite all_sep_app. simpl. rewrite Hall. apply andb_false_r.
Qed.

(** X10: going down and coming back: for an absolute normalised directory
    [d] and the name [n] of a child, the parent computed for the child
    [join d n] is [d].  So when the listing of the child directory has a
    parent entry, that entry is [(pardir, d)] and [get_path] on it gives
    [d]. *)
Theorem parent_entry_leads_back
        (self : H.t) (fs : FileSystem) (d n : string) (L : list entry) :
  normpath d = d -> isabs d = true -> plain n -> sepfree n ->
  isfile fs (join d n) = false ->
  H.get_listing self fs (join d n) = Ok [(join d n, L)] ->
  H.parent_of fs (join d n) = d
  /\ (samefile fs (join d n) d = Returns false ->
      exists rest, L = (pardir, d) :: rest /\ Nav.get_path (pardir, d) = d).
Proof.
  intros Hd Habs Hn Hs Hf HL.
  assert (Hdot : d <> ".") by (intros ->; discriminate).
  pose proof (normpath_join_plain d n Hd Hdot Hn Hs) as Hnorm.
  destruct (join_abs_not_root d n Hd Habs Hn Hs) as [Ha Hr].
  assert (Hp : H.parent_of fs (join d n) = d).
  { rewrite parent_of_absolute by assumption.
    apply dirname_basename_join; assumption. }
  split; [exact Hp|]. intro Hsame.
  rewrite get_listing_entries in HL. unfold parent_entries, H.get_dir_from_path in HL.
  rewrite Hf, Hnorm, Hp, Hsame in HL. simpl in HL. inversion HL.
  eexists. split; reflexivity.
Qed.

Lemma parent_entry_leads_back_witness :
  H.parent_of fs_abc "/a/b" = "/a"
  /\ exists rest, [("..", "/a"); ("d.py", "/a/b")] = ("..", "/a") :: rest
                  /\ Nav.get_path ("..", "/a") = "/a".
Proof.
  destruct (parent_entry_leads_back helper0 fs_abc "/a" "b"
              [("..", "/a"); ("d.py", "/a/b")]) as [H1 H2].
  - reflexivity.
  - reflexivity.
  - repeat split; discriminate.
  - reflexivity.
  - reflexivity.
  - reflexivity.
  - split; [exact H1|]. exact (H2 eq_refl).
Defined.

(* ================================================================== *)
(** ** More on the session *)
(* ================================================================== *)

(** *** navigate *)

(** What a successful [navigate] leaves. *)
Lemma navigate_result
        (fs : FileSystem) (st st' : State) (path_to_navigate : string) :
  Nav.navigate fs st path_to_navigate = Ok st' ->
  exists items,
    H.get_listing (helper st) fs path_to_navigate = Ok [(path_to_navigate, items)]
    /\ stack st' = [(path_to_navigate, items)]
    /\ calls st' = (calls st ++ [show_quick_panel items path_to_navigate 0])%list
    /\ helper st' = helper st
    /\ forall q, q <> path_to_navigate -> getitem (stack st') q = Raise KeyError.
Proof.
  unfold Nav.navigate. rewrite get_listing_entries.
  destruct (parent_entries fs path_to_navigate) as [head|]; [|discriminate].
  simpl. rewrite String.eqb_refl. simpl. intro E. inversion E; subst st'. simpl.
  eexists. repeat split.
  intros q Hq. apply not_eq_sym in Hq. apply eqb_false_iff in Hq.
  simpl. rewrite Hq. reflexivity.
Qed.

(** X11: [navigate] replaces the command's stack: after it the stack has
    the navigated path as its only key, bound to the listing that was shown
    in the panel, with index 0 selected; the helper is untouched; and
    looking up any other path -- one listed earlier in the session, say --
    raises [KeyError]. *)
Theorem navigate_replaces_the_stack
        (fs : FileSystem) (st st' : State) (path_to_navigate : string) :
  Nav.navigate fs st path_to_navigate = Ok st' ->
  exists items,
    H.get_listing (helper st) fs path_to_navigate = Ok [(path_to_navigate, items)]
    /\ stack st' = [(path_to_navigate, items)]
    /\ calls st' = (calls st ++ [show_quick_panel items path_to_navigate 0])%list
    /\ helper st' = helper st
    /\ forall q, q <> path_to_navigate -> getitem (stack st') q = Raise KeyError.
Proof.
  unfold Nav.navigate. rewrite get_listing_entries.
  destruct (parent_entries fs path_to_navigate) as [head|]; [|discriminate].
  simpl. rewrite String.eqb_refl. simpl. intro E. inversion E; subst st'. simpl.
  eexists. repeat split.
  intros q Hq. apply not_eq_sym in Hq. apply eqb_false_iff in Hq.
  simpl. rewrite Hq. reflexivity.
Qed.

Lemma navigate_replaces_the_stack_witness :
  stack st_panel_b = [("/a/b", [("..", "/a"); ("d.py", "/a/b")])]
  /\ getitem (stack st_panel_b) "/a/c.txt" = Raise KeyError.
Proof.
  destruct (navigate_replaces_the_stack fs_abc st_commit_b st_panel_b "/a/b" eq_refl)
    as (items & H1 & H2 & _ & _ & H5).
  assert (E : items = [("..", "/a"); ("d.py", "/a/b")]).
  { vm_compute in H1. inversion H1. reflexivity. }
  rewrite E in H2. split; [exact H2|]. apply H5. discriminate.
Defined.

(** *** What a session keeps *)

Lemma show_preview_state (fs : FileSystem) (st st' : State) (p : string) (i : Z) :
  Nav.show_preview fs st p i = Ok st' ->
  stack st' = stack st
  /\ (helper st' = helper st \/ exists x, helper st' = H.set_preview (helper st) x).
Proof.
  unfold Nav.show_preview. destruct (0 <=? i)%Z.
  - destruct (getitem _ _); simpl; [|discriminate].
    destruct (list_getitem _ _); simpl; [|discriminate].
    destruct (isfile fs _); intro E; inversion E; subst; simpl;
      (split; [reflexivity | right; eexists; reflexivity]).
  - intro E. inversion E. subst. split; [reflexivity | left; reflexivity].
Qed.

Lemma open_selected_file_descends_stack (fs : FileSystem) (st st1 : State)
      (p s : string) (i : Z) :
  Nav.open_selected_file fs st p i = Ok st1 ->
  last (calls st1) (run_command "") = set_timeout_async_navigate s ->
  stack st1 = stack st.
Proof.
  unfold Nav.open_selected_file. destruct (i <? 0)%Z.
  - intro E. inversion E. reflexivity.
  - destruct (getitem _ _); simpl; [|discriminate].
    destruct (list_getitem _ _); simpl; [|discriminate].
    destruct (isfile fs _); intro E; inversion E; reflexivity.
Qed.

Lemma run_shows_panel (window : Window) (fs : FileSystem) (st0 st : State)
      (r : option string) (h : H.t) :
  H.track_calling_view (helper st0) window = Ok (r, h) ->
  Nav.run window fs st0 = Ok st ->
  helper st = h
  /\ exists items, stack st = [(Nav.starting_file fs r, items)].
Proof.
  intros Ht Hr. unfold Nav.run in Hr. rewrite Ht in Hr. simpl in Hr.
  destruct (navigate_result _ _ _ _ Hr) as (items & _ & Hs & _ & Hh & _).
  split; [exact Hh | exists items; exact Hs].
Qed.

(** While browsing, the stack holds the listing of the open panel and
    nothing else. *)
Lemma browsing_stack (window : Window) (fs : FileSystem) (st0 : State)
      (cwd : string) (st : State) :
  browsing window fs st0 cwd st -> exists items, stack st = [(cwd, items)].
Proof.
  induction 1 as [r h st Ht Hr | cwd st i st' _ IH Hp | cwd st i st1 s st2 _ IH Ho Hl Hn].
  - exact (proj2 (run_shows_panel _ _ _ _ _ _ Ht Hr)).
  - destruct (show_preview_state _ _ _ _ _ Hp) as [Hs _]. rewrite Hs. exact IH.
  - destruct (navigate_result _ _ _ _ Hn) as (items & _ & Hs & _).
    exists items. exact Hs.
Qed.

(** X12: while a session is browsing, at any depth, the stack holds the
    listing of the open panel under the panel's path: a highlight or a
    commit on an index of that listing never raises, and one past its end
    raises [IndexError]. *)
Theorem events_on_the_open_panel
        (window : Window) (fs : FileSystem) (st0 : State)
        (cwd : string) (st : State) :
  browsing window fs st0 cwd st ->
  exists items,
    getitem (stack st) cwd = Ok items
    /\ (forall i, 0 <= i < Z.of_nat (List.length items) ->
                  (exists st', Nav.show_preview fs st cwd i = Ok st')
                  /\ (exists st', Nav.open_selected_file fs st cwd i = Ok st'))
    /\ (forall i, Z.of_nat (List.length items) <= i ->
                  Nav.show_preview fs st cwd i = Raise IndexError
                  /\ Nav.open_selected_file fs st cwd i = Raise IndexError).
Proof.
  intro Hb. destruct (browsing_stack _ _ _ _ _ Hb) as [items Hs].
  assert (Hg : getitem (stack st) cwd = Ok items).
  { rewrite Hs. simpl. rewrite String.eqb_refl. reflexivity. }
  exists items. split; [exact Hg|]. split; intros i Hi.
  - assert (E1 : (0 <=? i)%Z = true) by (apply Z.leb_le; lia).
    assert (E2 : (i <? 0)%Z = false) by (apply Z.ltb_ge; lia).
    destruct (nth_error items (Z.to_nat i)) as [e|] eqn:En;
      [|apply nth_error_None in En; lia].
    unfold Nav.show_preview, Nav.open_selected_file, list_getitem.
    rewrite E1, E2, Hg. simpl. rewrite En. simpl.
    split; destruct (isfile fs (Nav.get_path e)); eexists; reflexivity.
  - assert (E1 : (0 <=? i)%Z = true) by (apply Z.leb_le; lia).
    assert (E2 : (i <? 0)%Z = false) by (apply Z.ltb_ge; lia).
    assert (En : nth_error items (Z.to_nat i) = None) by (apply nth_error_None; lia).
    unfold Nav.show_preview, Nav.open_selected_file, list_getitem.
    rewrite E1, E2, Hg. simpl. rewrite En. simpl. split; reflexivity.
Qed.

Lemma events_on_the_open_panel_witness :
  (exists st', Nav.show_preview fs_abc st_preview_d "/a/b" 0 = Ok st')
  /\ Nav.open_selected_file fs_abc st_preview_d "/a/b" 2 = Raise IndexError.
Proof.
  destruct (events_on_the_open_panel window_c fs_abc state0 "/a/b" st_preview_d
              browsing_preview_d) as (items & Hg & Hin & Hout).
  assert (E : items = [("..", "/a"); ("d.py", "/a/b")]).
  { vm_compute in Hg. inversion Hg. reflexivity. }
  subst items. split.
  - apply (Hin 0). simpl. lia.
  - apply (Hout 2). simpl. lia.
Defined.

(** *** The helper during a session *)

Lemma track_calling_view_result (self h : H.t) (window : Window) (r : option string) :
  H.track_calling_view self window = Ok (r, h) ->
  exists v,
    active_view window = Some v
    /\ r = file_name v
    /\ H.calling_view h = Some v
    /\ H.calling_view_index h = Some (get_view_index window v)
    /\ H.calling_view_is_empty h = Some (List.length (views window) =? 0)%nat
    /\ H.excluded_extensions h = H.excluded_extensions self
    /\ H.preview_file_path h = H.preview_file_path self
    /\ H.file_navigation_active h = H.file_navigation_active self.
Proof.
  unfold H.track_calling_view. destruct (active_view window) as [v|]; [|discriminate].
  intro E. inversion E; subst. exists v. repeat split.
Qed.

(** X13: after [track_calling_view], [get_current_view_index] gives the
    slot of the view that was active, or [(0, -1)] when the window had no
    view in [views()]; the call changes neither the exclusion patterns nor
    the preview. *)
Theorem tracked_insertion_slot (self h : H.t) (window : Window) (r : option string) :
  H.track_calling_view self window = Ok (r, h) ->
  exists v,
    active_view window = Some v
    /\ r = file_name v
    /\ H.get_current_view_index h
       = Ok (match views window with
             | [] => (0, -1)
             | _ :: _ => get_view_index window v
             end)
    /\ H.excluded_extensions h = H.excluded_extensions self
    /\ H.get_preview_path h = H.get_preview_path self.
Proof.
  intro Ht. destruct (track_calling_view_result _ _ _ _ Ht)
    as (v & Hv & Hr & _ & Hi & He & Hx & Hp & _).
  exists v. split; [exact Hv|]. split; [exact Hr|]. split; [|split; assumption].
  unfold H.get_current_view_index. rewrite He, Hi.
  destruct (views window); reflexivity.
Qed.

Lemma tracked_insertion_slot_witness :
  (exists h, H.track_calling_view helper0 window_preview = Ok (Some "/a/b/d.py", h)
             /\ H.get_current_view_index h = Ok (0, 2))
  /\ (exists h, H.track_calling_view helper0 window_empty = Ok (None, h)
                /\ H.get_current_view_index h = Ok (0, -1)).
Proof.
  split.
  - eexists. split; [reflexivity|].
    destruct (tracked_insertion_slot helper0 _ window_preview _ eq_refl)
      as (v & Hv & _ & Hi & _).
    inversion Hv; subst v. exact Hi.
  - eexists. split; [reflexivity|].
    destruct (tracked_insertion_slot helper0 _ window_empty _ eq_refl)
      as (v & Hv & _ & Hi & _).
    exact Hi.
Defined.

(** What every browsing state keeps of the helper. *)
Lemma browsing_helper (window : Window) (fs : FileSystem) (st0 : State)
      (cwd : string) (st : State) :
  browsing window fs st0 cwd st ->
  H.excluded_extensions (helper st) = H.excluded_extensions (helper st0)
  /\ (visible_iff_preview (helper st0) -> visible_iff_preview (helper st))
  /\ forall v, active_view window = Some v ->
               H.calling_view_index (helper st) = Some (get_view_index window v).
Proof.
  induction 1 as [r h st Ht Hr | cwd st i st' _ IH Hp | cwd st i st1 s st2 _ IH Ho Hl Hn].
  - destruct (run_shows_panel _ _ _ _ _ _ Ht Hr) as [Hh _]. rewrite Hh.
    destruct (track_calling_view_result _ _ _ _ Ht)
      as (v & Hv & _ & _ & Hi & _ & Hx & Hp & Hf).
    split; [exact Hx|]. split.
    + unfold visible_iff_preview. rewrite Hp, Hf. exact (fun H => H).
    + intros v' Hv'. rewrite Hv in Hv'. inversion Hv'; subst. exact Hi.
  - destruct (show_preview_state _ _ _ _ _ Hp) as [_ [Hh|[x Hh]]]; rewrite Hh.
    + exact IH.
    + destruct IH as (IH1 & _ & IH3). split; [exact IH1|]. split; [|exact IH3].
      intros _. unfold visible_iff_preview. simpl. split; [discriminate | reflexivity].
  - apply navigate_helper in Hn. rewrite Hn.
    rewrite (open_selected_file_descends _ _ _ _ _ _ Ho Hl). exact IH.
Qed.

(** X14: the helper's exclusion patterns are never changed by a session,
    and the [file_navigation_active] setting is set exactly while a preview
    path is stored: when that holds as the session starts (as it does after
    [__init__]), it holds in every browsing state, and again after whatever
    ends or continues the session (a commit with any index, a cancel). *)
Theorem helper_invariant_in_session
        (window : Window) (fs : FileSystem) (st0 : State)
        (cwd : string) (st : State) :
  visible_iff_preview (helper st0) ->
  browsing window fs st0 cwd st ->
  H.excluded_extensions (helper st) = H.excluded_extensions (helper st0)
  /\ visible_iff_preview (helper st)
  /\ forall i st',
      Nav.open_selected_file fs st cwd i = Ok st' ->
      H.excluded_extensions (helper st') = H.excluded_extensions (helper st0)
      /\ visible_iff_preview (helper st').
Proof.
  intros H0 Hb. destruct (browsing_helper _ _ _ _ _ Hb) as (Hx & Hv & _).
  split; [exact Hx|]. split; [exact (Hv H0)|].
  intros i st'. unfold Nav.open_selected_file.
  assert (Hreset : visible_iff_preview (H.reset (helper st))).
  { unfold visible_iff_preview. simpl. split; [discriminate | intro H; contradiction H; reflexivity]. }
  destruct (i <? 0)%Z.
  - intro E. inversion E; subst. simpl. split; [exact Hx | exact Hreset].
  - destruct (getitem _ _); simpl; [|discriminate].
    destruct (list_getitem _ _); simpl; [|discriminate].
    destruct (isfile fs _); intro E; inversion E; subst; simpl.
    + split; [exact Hx | exact Hreset].
    + split; [exact Hx | exact (Hv H0)].
Qed.

Lemma init_visible_iff_preview (b f : list string) : visible_iff_preview (H.init b f).
Proof.
  unfold visible_iff_preview. simpl.
  split; [discriminate | intro H; contradiction H; reflexivity].
Qed.

Lemma helper_invariant_in_session_witness :
  H.excluded_extensions (helper st_preview_d) = ["*.jpg"; "*.png"; "*.gif"; "*.pyc"; ".DS_Store"]
  /\ visible_iff_preview (helper st_preview_d).
Proof.
  destruct (helper_invariant_in_session window_c fs_abc state0 "/a/b" st_preview_d
              (init_visible_iff_preview _ _) browsing_preview_d) as (H1 & H2 & _).
  split; [exact H1 | exact H2].
Defined.

(** *** Quick open *)

(** X15: the quick-open command never ends the session: whenever it
    returns, the helper (preview path, [file_navigation_active], origin) and
    the stack are as before, and it has made either no call or the two
    calls [open_file], [set_view_index] on the previewed path. *)
Theorem quick_open_keeps_the_session
        (window : Window) (fs : FileSystem) (st st' : State) :
  Quick.run window fs st = Ok st' ->
  helper st' = helper st
  /\ stack st' = stack st
  /\ (calls st' = calls st
      \/ exists fp v g i,
          H.get_preview_path (helper st) = Some fp
          /\ isfile fs fp = true
          /\ calls st' = (calls st ++ [open_file fp false; set_view_index v g i])%list).
Proof.
  unfold Quick.run. destruct (H.get_preview_path (helper st)) as [fp|] eqn:Ep.
  - destruct (fp =? ""); simpl.
    + intro E. inversion E. subst. repeat split. left. reflexivity.
    + destruct (isfile fs fp) eqn:Ef; simpl.
      * destruct (view_eq _ _ || Quick.is_none _).
        -- destruct (H.get_current_view_index (helper st)) as [gi|]; simpl; [|discriminate].
           intro E. inversion E. subst. simpl. repeat split. right.
           exists fp, (open_file_view window fp), (fst gi), (snd gi + 1).
           rewrite <- app_assoc. repeat split. exact Ef.
        -- intro E. inversion E. subst. repeat split. left. reflexivity.
      * intro E. inversion E. subst. repeat split. left. reflexivity.
  - intro E. inversion E. subst. repeat split. left. reflexivity.
Qed.

Lemma quick_open_keeps_the_session_witness :
  exists st',
    Quick.run window_preview fs_abc st_preview_d = Ok st'
    /\ helper st' = helper st_preview_d
    /\ H.file_navigation_active (helper st') = true.
Proof.
  eexists. split; [reflexivity|].
  destruct (quick_open_keeps_the_session window_preview fs_abc st_preview_d _ eq_refl)
    as (Hh & _ & _).
  split; [exact Hh | rewrite Hh; reflexivity].
Defined.

(** X16: quick open during a session puts the previewed file right after
    the tab the session started from: when the previewed path is a file
    that is not open, or is the transient view of the active group, the
    view returned by [open_file] is moved to [(group, index + 1)], where
    [(group, index)] is the slot that the view active at the start of the
    session had then -- [(0, -1)], hence slot [(0, 0)], when the session
    started on a window without views. *)
Theorem quick_open_in_session
        (window0 window : Window) (fs : FileSystem) (st0 : State)
        (cwd : string) (st : State) (v0 : View) (fp : string) :
  browsing window0 fs st0 cwd st ->
  active_view window0 = Some v0 ->
  H.get_preview_path (helper st) = Some fp ->
  isfile fs fp = true ->
  fp <> "" ->
  (find_open_file window fp = None
   \/ view_eq (find_open_file window fp)
              (transient_view_in_group window (active_group window)) = true) ->
  let slot := match views window0 with
              | [] => (0, -1)
              | _ :: _ => get_view_index window0 v0
              end in
  Quick.run window fs st
  = Ok {| helper := helper st;
          stack := stack st;
          calls := (calls st ++
                    [open_file fp false;
                     set_view_index (open_file_view window fp) (fst slot) (snd slot + 1)])%list |}.
Proof.
  intros Hb Hv0 Hp Hf Hne Hv slot.
  destruct (browsing_origin _ _ _ _ _ Hb) as [_ He].
  destruct (browsing_helper _ _ _ _ _ Hb) as (_ & _ & Hi).
  specialize (Hi v0 Hv0).
  assert (Hslot : H.get_current_view_index (helper st) = Ok slot).
  { unfold H.get_current_view_index, slot. rewrite He, Hi.
    destruct (views window0); reflexivity. }
  unfold Quick.run. rewrite Hp, Hf. apply eqb_false_iff in Hne. rewrite Hne. simpl.
  assert (E : view_eq (find_open_file window fp)
                (transient_view_in_group window (active_group window))
              || Quick.is_none (find_open_file window fp) = true).
  { destruct Hv as [Hv|Hv]; rewrite Hv; [apply orb_true_r | reflexivity]. }
  rewrite E, Hslot. simpl. unfold call. simpl. rewrite <- app_assoc. reflexivity.
Qed.

Lemma quick_open_in_session_witness :
  Quick.run window_preview fs_abc st_preview_d
  = Ok {| helper := helper st_preview_d;
          stack := stack st_preview_d;
          calls := (calls st_preview_d ++
                    [open_file "/a/b/d.py" false; set_view_index view_d 0 1])%list |}.
Proof.
  apply (quick_open_in_session window_c window_preview fs_abc state0 "/a/b"
           st_preview_d view_c "/a/b/d.py" browsing_preview_d).
  - reflexivity.
  - reflexivity.
  - reflexivity.
  - discriminate.
  - right. reflexivity.
Defined.

(** *** Which patterns can exclude *)

Lemma lower_char_idempotent (c : ascii) : lower_char (lower_char c) = lower_char c.
Proof. destruct c as [[] [] [] [] [] [] [] []]; reflexivity. Qed.

Lemma lower_idempotent (s : string) : lower (lower s) = lower s.
Proof.
  induction s as [|c r IH]; [reflexivity|].
  simpl. rewrite lower_char_idempotent, IH. reflexivity.
Qed.

(** The character at the index found by [rfind] is the one looked for. *)
Lemma rfind_from_head (c : ascii) (s : string) :
  forall i last : Z,
    last < i ->
    i <= rfind_from c s i last ->
    exists r, drop (Z.to_nat (rfind_from c s i last - i)) s = String c r.
Proof.
  induction s as [|a s IH]; intros i last Hlt Hr.
  - simpl in Hr. lia.
  - cbn [rfind_from] in *. destruct (Ascii.eqb_spec a c) as [->|Hne].
    + destruct (Z.eq_dec (rfind_from c s (i + 1) i) i) as [E|E].
      * rewrite E. replace (Z.to_nat (i - i)) with 0%nat by lia.
        exists s. reflexivity.
      * destruct (rfind_from_tail c s (i + 1) i ltac:(lia)) as [[Hx _]|[Hx _]];
          [contradiction|].
        destruct (IH (i + 1) i ltac:(lia) Hx) as [r Hd]. exists r.
        replace (Z.to_nat (rfind_from c s (i + 1) i - i))
          with (S (Z.to_nat (rfind_from c s (i + 1) i - (i + 1)))) by lia.
        exact Hd.
    + destruct (rfind_from_tail c s (i + 1) last ltac:(lia)) as [[Hx _]|[Hx _]];
        [lia|].
      destruct (IH (i + 1) last ltac:(lia) Hx) as [r Hd]. exists r.
      replace (Z.to_nat (rfind_from c s (i + 1) last - i))
        with (S (Z.to_nat (rfind_from c s (i + 1) last - (i + 1)))) by lia.
      exact Hd.
Qed.

(** The extension given by [splitext] is empty or starts with a dot. *)
Lemma splitext_extension (p : string) :
  snd (splitext p) = "" \/ exists r, snd (splitext p) = String "." r.
Proof.
  unfold splitext.
  destruct ((rfind "/" p <? rfind "." p)%Z && _) eqn:E; [|left; reflexivity].
  right. apply andb_true_iff in E. destruct E as [E _]. apply Z.ltb_lt in E.
  pose proof (rfind_bounds "/" p) as Hb.
  unfold rfind in *. simpl. unfold slice_from.
  destruct (rfind_from_head "." p 0 (-1) ltac:(lia) ltac:(lia)) as [r Hr].
  exists r. rewrite Z.sub_0_r in Hr. exact Hr.
Qed.

Lemma mem_In (x : string) (xs : list string) : mem x xs = true -> In x xs.
Proof.
  unfold mem. intro H. apply existsb_exists in H. destruct H as (y & Hy & E).
  apply String.eqb_eq in E. subst. exact Hy.
Qed.

(** X17: a child can only be excluded by a pattern that is ["*"] followed
    by the lower-cased extension of its path: the pattern is ["*"] itself
    (for a path without extension) or starts with ["*."], and [lower]
    leaves it as it is, no letter of it being upper-case.  A pattern of
    another form in the preferences -- a bare file name such as
    [.DS_Store], an upper-case [*.PNG] -- excludes nothing. *)
Theorem only_extension_patterns_exclude (self : H.t) (file_path : string) :
  H.is_excluded self file_path = true ->
  exists pattern,
    In pattern (H.excluded_extensions self)
    /\ pattern = "*" ++ lower (snd (splitext file_path))
    /\ (pattern = "*" \/ startswith pattern "*." = true)
    /\ lower pattern = pattern.
Proof.
  unfold H.is_excluded. intro H. apply mem_In in H.
  exists ("*" ++ lower (snd (splitext file_path))).
  split; [exact H|]. split; [reflexivity|]. split.
  - destruct (splitext_extension file_path) as [->|[r ->]]; [left | right]; reflexivity.
  - simpl. rewrite lower_idempotent. reflexivity.
Qed.

Lemma only_extension_patterns_exclude_witness :
  exists pattern,
    In pattern ["*.jpg"; "*.png"; "*.gif"; "*.pyc"; ".DS_Store"]
    /\ pattern = "*.png"
    /\ lower pattern = pattern.
Proof.
  destruct (only_extension_patterns_exclude helper0 "/a/Photo.PNG" eq_refl)
    as (pattern & H1 & H2 & _ & H4).
  exists pattern. split; [exact H1|]. split; [exact H2 | exact H4].
Defined.

(** Letters outside ASCII are lower-cased as well: an extension in
    capital E-acute is excluded by the pattern in small e-acute, and by
    no pattern in capital E-acute. *)
Example accented_extension_is_lowered :
  lower E_acute = e_acute
  /\ H.is_excluded (H.init ["*." ++ e_acute] []) ("/a/x." ++ E_acute) = true
  /\ H.is_excluded (H.init ["*." ++ E_acute] []) ("/a/x." ++ E_acute) = false.
Proof. repeat split. Qed.

(** A path is excluded or kept by its extension alone: the disk is not
    consulted, so a directory is excluded like a file. *)
Example directory_with_excluded_extension :
  H.is_excluded helper0 "/a/album.png" = true
  /\ H.is_excluded helper0 "/a/.DS_Store" = false.
Proof. split; reflexivity. Qed.

(** *** Every other child is listed *)

(** X18: the listing is complete for the children that the filter is
    meant to keep: a globbed child whose extension is not excluded and that
    is not the same file as the path given has its entry in the listing. *)
Theorem kept_children_are_listed
        (self : H.t) (fs : FileSystem) (current_file c : string) (L : list entry) :
  H.get_listing self fs current_file = Ok [(current_file, L)] ->
  In c (glob fs (join (H.get_dir_from_path fs current_file) "*")) ->
  H.is_excluded self c = false ->
  H.is_same_file fs c current_file = false ->
  In (H.child_entry fs c) L.
Proof.
  intros HL Hg Hx Hs. rewrite get_listing_entries in HL.
  destruct (parent_entries fs current_file) as [head|]; [|discriminate].
  inversion HL; subst L. apply in_or_app. right. apply in_map.
  unfold listed_children. apply filter_In. split.
  - unfold H.filtered_children, H.filter_excluded. apply exclude_loop_keeps; assumption.
  - unfold keeps. rewrite skip_file_never_skips, Hs. reflexivity.
Qed.

Lemma kept_children_are_listed_witness :
  In ("z.txt", "/a") [("..", "/"); ("y.png", "/a"); ("z.txt", "/a")].
Proof.
  apply (kept_children_are_listed helper0 fs_images "/a" "/a/z.txt").
  - reflexivity.
  - simpl. tauto.
  - reflexivity.
  - reflexivity.
Defined.

(** *** get_dir_from_path on a child *)

(** X19: for a child [join d n] of a normalised directory [d]:
    [get_dir_from_path] gives [d] back when the child is a file, and the
    child itself when it is not a file, [d] is not [.] and [n] is a name
    other than [.] and [..]. *)
Theorem get_dir_from_path_of_child (fs : FileSystem) (d n : string) :
  normpath d = d -> sepfree n ->
  (isfile fs (join d n) = true -> H.get_dir_from_path fs (join d n) = d)
  /\ (isfile fs (join d n) = false -> d <> "." -> plain n ->
      H.get_dir_from_path fs (join d n) = join d n).
Proof.
  intros Hd Hs. unfold H.get_dir_from_path. split.
  - intros ->. destruct (dirname_basename_join d n Hd Hs) as [E _].
    rewrite E. exact Hd.
  - intros -> Hdot Hn. apply normpath_join_plain; assumption.
Qed.

Lemma get_dir_from_path_of_child_witness :
  H.get_dir_from_path fs_abc "/a/c.txt" = "/a"
  /\ H.get_dir_from_path fs_abc "/a/b" = "/a/b".
Proof.
  destruct (get_dir_from_path_of_child fs_abc "/a" "c.txt" eq_refl eq_refl) as [H1 _].
  destruct (get_dir_from_path_of_child fs_abc "/a" "b" eq_refl eq_refl) as [_ H2].
  split; [exact (H1 eq_refl)|].
  apply H2; [reflexivity | discriminate | repeat split; discriminate].
Defined.

(** *** Highlights and directory commits in a session *)

(** X20: a highlight during a session stores the entry's path as the
    preview and sets [file_navigation_active]; it opens the path as a
    transient view when it is a file, and otherwise gives the focus back to
    the view the session started from ([close_file] when the window had no
    view then) -- so the preview of a file highlighted before does not stay
    in front.  The panel stays open: the session goes on. *)
Theorem highlight_in_session
        (window : Window) (fs : FileSystem) (st0 : State)
        (cwd : string) (st : State) (i : Z) (items : list entry) (e : entry) :
  browsing window fs st0 cwd st ->
  0 <= i ->
  getitem (stack st) cwd = Ok items ->
  list_getitem items i = Ok e ->
  exists st',
    Nav.show_preview fs st cwd i = Ok st'
    /\ browsing window fs st0 cwd st'
    /\ H.get_preview_path (helper st') = Some (Nav.get_path e)
    /\ H.file_navigation_active (helper st') = true
    /\ calls st'
       = (calls st ++
          [if isfile fs (Nav.get_path e) then open_file (Nav.get_path e) true
           else if (List.length (views window) =? 0)%nat
                then run_command "close_file"
                else focus_view (active_view window)])%list.
Proof.
  intros Hb Hi Hg Hl. destruct (browsing_origin _ _ _ _ _ Hb) as [Hv He].
  assert (E : (0 <=? i)%Z = true) by (apply Z.leb_le; exact Hi).
  assert (Hp : exists st', Nav.show_preview fs st cwd i = Ok st'
      /\ H.get_preview_path (helper st') = Some (Nav.get_path e)
      /\ H.file_navigation_active (helper st') = true
      /\ calls st'
         = (calls st ++
            [if isfile fs (Nav.get_path e) then open_file (Nav.get_path e) true
             else if (List.length (views window) =? 0)%nat
                  then run_command "close_file"
                  else focus_view (active_view window)])%list).
  { unfold Nav.show_preview. rewrite E, Hg. simpl. rewrite Hl. simpl.
    destruct (isfile fs (Nav.get_path e)); eexists; (split; [reflexivity|]); simpl;
      repeat split.
    unfold H.show_calling_view. simpl. rewrite He, Hv.
    destruct (List.length (views window) =? 0)%nat; reflexivity. }
  destruct Hp as (st' & Hs & Hrest). exists st'. split; [exact Hs|].
  split; [|exact Hrest]. exact (browsing_highlight _ _ _ _ _ _ _ Hb Hs).
Qed.

Lemma highlight_in_session_witness :
  exists st',
    Nav.show_preview fs_abc st_preview_d "/a/b" 0 = Ok st'
    /\ H.get_preview_path (helper st') = Some "/a"
    /\ calls st' = (calls st_preview_d ++ [focus_view (Some view_c)])%list.
Proof.
  destruct (highlight_in_session window_c fs_abc state0 "/a/b" st_preview_d 0
              [("..", "/a"); ("d.py", "/a/b")] ("..", "/a") browsing_preview_d)
    as (st' & H1 & _ & H3 & _ & H5).
  - lia.
  - reflexivity.
  - reflexivity.
  - exists st'. split; [exact H1|]. split; [exact H3 | exact H5].
Defined.

(** X21: a commit on an entry that does not resolve to a file keeps the
    session: the helper and the stack are as before (no reset), the focus
    goes back to the view the session started from ([close_file] when the
    window had no view then), and [navigate] is scheduled on the entry's
    path; when that [navigate] returns, the session is browsing that
    path. *)
Theorem directory_commit_in_session
        (window : Window) (fs : FileSystem) (st0 : State)
        (cwd : string) (st : State) (i : Z) (items : list entry) (e : entry) :
  browsing window fs st0 cwd st ->
  0 <= i ->
  getitem (stack st) cwd = Ok items ->
  list_getitem items i = Ok e ->
  isfile fs (Nav.get_path e) = false ->
  exists st1,
    Nav.open_selected_file fs st cwd i = Ok st1
    /\ helper st1 = helper st
    /\ stack st1 = stack st
    /\ calls st1
       = (calls st ++
          [if (List.length (views window) =? 0)%nat
           then run_command "close_file"
           else focus_view (active_view window);
           set_timeout_async_navigate (Nav.get_path e)])%list
    /\ forall st2, Nav.navigate fs st1 (Nav.get_path e) = Ok st2 ->
                   browsing window fs st0 (Nav.get_path e) st2.
Proof.
  intros Hb Hi Hg Hl Hf. destruct (browsing_origin _ _ _ _ _ Hb) as [Hv He].
  assert (E : (i <? 0)%Z = false) by (apply Z.ltb_ge; exact Hi).
  assert (Ho : Nav.open_selected_file fs st cwd i
               = Ok (call (call st (H.show_calling_view (helper st)))
                          (set_timeout_async_navigate (Nav.get_path e)))).
  { unfold Nav.open_selected_file. rewrite E, Hg. simpl. rewrite Hl. simpl.
    rewrite Hf. reflexivity. }
  eexists. split; [exact Ho|]. split; [reflexivity|]. split; [reflexivity|]. split.
  - simpl. rewrite <- app_assoc. simpl. unfold H.show_calling_view. rewrite He, Hv.
    destruct (List.length (views window) =? 0)%nat; reflexivity.
  - intros st2 Hn.
    apply (browsing_descend _ _ _ cwd st i _ (Nav.get_path e) st2 Hb Ho); [|exact Hn].
    simpl. apply last_last.
Qed.

Lemma directory_commit_in_session_witness :
  exists st1,
    Nav.open_selected_file fs_abc st_preview_d "/a/b" 0 = Ok st1
    /\ helper st1 = helper st_preview_d
    /\ calls st1 = (calls st_preview_d
                    ++ [focus_view (Some view_c); set_timeout_async_navigate "/a"])%list.
Proof.
  destruct (directory_commit_in_session window_c fs_abc state0 "/a/b" st_preview_d 0
              [("..", "/a"); ("d.py", "/a/b")] ("..", "/a") browsing_preview_d)
    as (st1 & H1 & H2 & _ & H4 & _).
  - lia.
  - reflexivity.
  - reflexivity.
  - reflexivity.
  - exists st1. split; [exact H1|]. split; [exact H2 | exact H4].
Defined.
